(** * Zapateria-app (SportZone): the cart and catalogue routes

    A shallow embedding of the Express routers [routes/cart.ts] and
    [routes/products.ts], together with the helper [calculateCartTotal] of the
    test suite, and the properties of the cart state machine proved on it.

    Modelling conventions.
    - A JavaScript number is an exact rational ([Qc], rationals in lowest
      terms, so that [===] is Leibniz equality), and sums and products are
      the exact ones.  That is what binary64 computes when the operands and
      the result are integers of magnitude at most 2^53; [NaN], the
      infinities and the rounding of other sums are outside the model.  A
      property that states the value of a sum is therefore stated for whole
      quantities ([whole], [exact_sums]).
    - A JavaScript string that the code inspects (names, descriptions, search
      terms) is its sequence of UTF-16 code units; identifiers that are only
      used as keys (the userId) are plain [string]s.
    - A value of unknown shape (a field of [req.body]) is a [value].
    - The session object and the data file are threaded explicitly: every
      handler maps a [State] to a [State] and a [Response]. *)

From Stdlib Require Import ZArith QArith Qcanon Qround List Lia.
From stdpp Require Import gmap strings list fin_maps numbers pretty.

Open Scope Qc_scope.

(** ** Numbers *)

Abbreviation num := Qc (only parsing).

(** The number denoted by an integer literal. *)
Definition int (z : Z) : num := Q2Qc (inject_Z z).

(** [Number.isInteger]. *)
Definition isInteger (n : num) : bool := bool_decide (Qden (this n) = 1%positive).

(** ** Values of unknown shape *)

#[local] Unset Elimination Schemes.
Inductive value : Type :=
| VUndefined
| VNull
| VBool (b : bool)
| VNum (n : num)
| VStr (s : string)
| VArr (xs : list value)
| VObj (fields : list (string * value)).
#[local] Set Elimination Schemes.

(** ToBoolean: what [!v] negates. *)
Definition truthy (v : value) : bool :=
  match v with
  | VUndefined | VNull => false
  | VBool b => b
  | VNum n => negb (bool_decide (n = 0))
  | VStr s => negb (bool_decide (s = ""%string))
  | VArr _ | VObj _ => true
  end.

(** [v == null]. *)
Definition loose_null (v : value) : bool :=
  match v with
  | VUndefined | VNull => true
  | _ => false
  end.

(** [typeof v === "number"]. *)
Definition is_number (v : value) : bool :=
  match v with
  | VNum _ => true
  | _ => false
  end.

(** A property read [tbl[k]] on an object literal whose keys are integer
    literals: the key is found when [k] is that integer, and the read is
    [undefined] ([None]) otherwise. *)
Fixpoint record_get (tbl : list (Z * Z)) (k : num) : option num :=
  match tbl with
  | [] => None
  | (key, v) :: rest => if bool_decide (int key = k) then Some (int v) else record_get rest k
  end.

(** [o || 0] for a number or [undefined]. *)
Definition or_zero (o : option num) : num :=
  match o with
  | Some n => if bool_decide (n = 0) then 0 else n
  | None => 0
  end.

(** [a > b] where [b] may be [undefined]: comparing with [undefined] is
    false. *)
Definition gt_maybe (a : num) (b : option num) : bool :=
  match b with
  | Some b => bool_decide (b < a)
  | None => false
  end.

(** ** Strings as code units *)

(** Code units of a literal written in UTF-8 (one- to three-byte sequences,
    which cover the Basic Multilingual Plane). *)
Fixpoint units_of_bytes (bs : list N) : list N :=
  match bs with
  | [] => []
  | b :: rest =>
    if (b <? 192)%N then b :: units_of_bytes rest
    else if (b <? 224)%N then
      match rest with
      | c :: rest' => ((b - 192) * 64 + (c - 128))%N :: units_of_bytes rest'
      | [] => [b]
      end
    else
      match rest with
      | c :: d :: rest' =>
        ((b - 224) * 4096 + (c - 128) * 64 + (d - 128))%N :: units_of_bytes rest'
      | _ => b :: rest
      end
  end.

Definition js (s : string) : list N :=
  units_of_bytes (map Ascii.N_of_ascii (String.list_ascii_of_string s)).

(** [toLowerCase] on one code unit.  The capitals of Basic Latin (A-Z) and
    of Latin-1 (U+00C0 to U+00DE, the multiplication sign excepted) move down
    by 32, and the four capitals beyond Latin-1 whose small letter lies
    within it (U+0178, U+1E9E, the Kelvin and the Angstrom sign) go to that
    letter.  Every other unit is kept: the texts of the catalogue are written
    in Basic Latin and Latin-1, and the case mapping of the further
    alphabets is not modelled. *)
Definition lower_unit (c : N) : N :=
  if ((65 <=? c) && (c <=? 90))%N then (c + 32)%N
  else if ((192 <=? c) && (c <=? 222) && negb (c =? 215))%N then (c + 32)%N
  else if (c =? 376)%N then 255%N
  else if (c =? 7838)%N then 223%N
  else if (c =? 8490)%N then 107%N
  else if (c =? 8491)%N then 229%N
  else c.

Definition toLowerCase (s : list N) : list N := map lower_unit s.

(** [s.startsWith(t)]. *)
Fixpoint startsWith (s t : list N) {struct t} : bool :=
  match t, s with
  | [], _ => true
  | _ :: _, [] => false
  | b :: t', a :: s' => (a =? b)%N && startsWith s' t'
  end.

(** [s.includes(t)]: [t] occurs at some position of [s]. *)
Fixpoint includes (s t : list N) : bool :=
  startsWith s t ||
  match s with
  | [] => false
  | _ :: s' => includes s' t
  end.

(** ** The catalogue ([routes/products.ts]) *)

Record Product : Type := mkProduct {
  p_id : num;
  p_name : list N;
  p_price : num;
  p_image : list N;
  p_description : list N;
  p_stock : num
}.

Definition product (i : Z) (name : string) (price : Z) (image description : string)
    (stock : Z) : Product :=
  mkProduct (int i) (js name) (int price) (js image) (js description) (int stock).

Definition products : list Product :=
  [ product 1 "Runner Azul" 199999 "/img/shoe_1.png"
      "Zapatilla ligera para correr, malla transpirable." 12;
    product 2 "Classic Rojo" 149999 "/img/shoe_2.png"
      "Clásico urbano para uso diario." 24;
    product 3 "Eco Verde" 179999 "/img/shoe_3.png"
      "Materiales reciclados, cómodo y resistente." 8;
    product 4 "Urban Naranja" 159999 "/img/shoe_4.png"
      "Estilo urbano con suela de alta tracción." 16;
    product 5 "Sport Morado" 189999 "/img/shoe_5.png"
      "Para entrenamientos de alto rendimiento." 10;
    product 6 "Trail Gris" 209999 "/img/shoe_6.png"
      "Ideal para montaña y terrenos irregulares." 7;
    product 7 "Pro Basketball Negro" 229999 "/img/shoe_7.png"
      "Diseño profesional con soporte de tobillo y amortiguación avanzada." 15;
    product 8 "Casual Blanco" 139999 "/img/shoe_8.png"
      "Estilo minimalista y elegante, perfecto para cualquier ocasión." 20;
    product 9 "Skate Amarillo" 169999 "/img/shoe_9.png"
      "Suela reforzada y diseño resistente." 11 ].

(** [router.get("/search/:query")]: the products whose lower-cased name or
    description includes the lower-cased query. *)
Definition search_in (catalog : list Product) (query : list N) : list Product :=
  let query := toLowerCase query in
  List.filter (fun p =>
    includes (toLowerCase (p_name p)) query ||
    includes (toLowerCase (p_description p)) query) catalog.

Definition search (query : list N) : list Product := search_in products query.

(** ** The cart ([routes/cart.ts]) *)

Record CartItem : Type := mkItem {
  productId : num;
  qty : num
}.

Abbreviation Cart := (list CartItem) (only parsing).

(** The cookie session, as far as the cart routes use it.  An absent field
    is [None]. *)
Record Session : Type := mkSession {
  userId : option string;
  cart : option (list CartItem)
}.

(** The data file [src/data/data.json].  [Missing]: there is no file, and
    [readFile] rejects.  [Unparsable]: the text is not the JSON of an object,
    so that [JSON.parse] or the property write throws (or, for an array, the
    write is dropped by [JSON.stringify]).  [Stored allCarts]: the text is
    the JSON of the mapping [allCarts] from userId to cart, and [readFile]
    delivers it.  [Unreadable allCarts]: the file holds that text, but
    [readFile] rejects (the permissions of the file, or the limits of the
    process, do not allow the read), and goes on rejecting.  The values are
    the own properties of the parsed object and are carts, as the declared
    type [CartItem[]] has them. *)
Inductive DataFile : Type :=
| Missing
| Unparsable
| Stored (allCarts : gmap string (list CartItem))
| Unreadable (allCarts : gmap string (list CartItem)).

(** The file system: the data file, and whether [writeFile] on it
    succeeds. *)
Record Disk : Type := mkDisk {
  data_file : DataFile;
  writable : bool
}.

Record State : Type := mkState {
  session : Session;
  disk : Disk
}.

(** The messages of the 400 responses. *)
Inductive Error : Type :=
| AddRequired       (* "Datos inválidos: productId y qty son requeridos" *)
| AddNotNumbers     (* "Datos inválidos: productId y qty deben ser números" *)
| QtyNotPositive    (* "La cantidad debe ser mayor a 0" *)
| NoSuchProduct     (* "El ID del producto no existe" *)
| StockShort (disponible : option num)
                    (* `Stock insuficiente. Disponible: ${stockMap[productId]}` *)
| RemoveRequired    (* "productId es requerido" *)
| RemoveNotNumber.  (* "productId debe ser un número" *)

Inductive Response : Type :=
| Json_cart (c : list CartItem)          (* res.json(cart) *)
| Json_total (sum count : num)           (* res.json({total, itemCount, currency: "COP"}) *)
| Json_ok (c : list CartItem)            (* res.json({ok: true, cart}) *)
| Bad_request (e : Error).               (* res.status(400).json({error}) *)

(** The body of a POST request: a field that is not sent is [VUndefined]. *)
Record Body : Type := mkBody {
  body_productId : value;
  body_qty : value
}.

(** [s || fallback] on an optional string: the empty string is falsy. *)
Definition string_or (s : option string) (fallback : string) : string :=
  match s with
  | Some u => if bool_decide (u = ""%string) then fallback else u
  | None => fallback
  end.

(** [if (s)] on an optional string. *)
Definition string_truthy (s : option string) : bool :=
  match s with
  | Some u => negb (bool_decide (u = ""%string))
  | None => false
  end.

(** [sess.cart || []]: an array, even an empty one, is truthy. *)
Definition cart_or_empty (c : option (list CartItem)) : list CartItem :=
  match c with
  | Some items => items
  | None => []
  end.

(** The text the file parses to in [saveCartToFile]: any failed read, of an
    absent file or of one that exists, is replaced by the text of the empty
    object (the [catch] of the read). *)
Definition read_or_empty (f : DataFile) : option (gmap string (list CartItem)) :=
  match f with
  | Missing | Unreadable _ => Some ∅
  | Unparsable => None
  | Stored allCarts => Some allCarts
  end.

(** [allCarts[userId] = cart] on the parsed object, as far as
    [JSON.stringify] sees it afterwards.  The key [__proto__] is the accessor
    every object inherits: unless the parsed text had a property of that
    name, the assignment replaces the prototype of [allCarts] and creates no
    property of its own, so that nothing of it is written.  Any other key
    becomes (or stays) an own property. *)
Definition assign_key (uid : string) (c : list CartItem)
    (allCarts : gmap string (list CartItem)) : gmap string (list CartItem) :=
  if bool_decide (uid = "__proto__"%string) && negb (bool_decide (is_Some (allCarts !! uid)))
  then allCarts
  else <[uid := c]> allCarts.

(** The file after [writeFile] has replaced its text. *)
Definition rewritten (f : DataFile) (allCarts : gmap string (list CartItem)) : DataFile :=
  match f with
  | Unreadable _ => Unreadable allCarts
  | _ => Stored allCarts
  end.

(** [saveCartToFile]: read, parse, replace one key, write back.  Any failure
    of the parse or of the write is caught and logged, and leaves the disk as
    it was. *)
Definition saveCartToFile (uid : string) (c : list CartItem) (d : Disk) : Disk :=
  match read_or_empty (data_file d) with
  | None => d
  | Some allCarts =>
    if writable d
    then mkDisk (rewritten (data_file d) (assign_key uid c allCarts)) (writable d)
    else d
  end.

(** [loadCartFromFile]: [allCarts[userId] || []], and [[]] on any failure.
    The read [allCarts[userId]] is modelled for the keys the object can own;
    for a key that it does not own and that every object inherits
    ([constructor], [toString], ...) the source returns the inherited value,
    which is no cart: the properties below that load a cart do so for a key
    the file holds. *)
Definition loadCartFromFile (uid : string) (d : Disk) : list CartItem :=
  match data_file d with
  | Stored allCarts => cart_or_empty (allCarts !! uid)
  | Missing | Unparsable | Unreadable _ => []
  end.

(** [router.get("/")] *)
Definition get (st : State) : State * Response :=
  let sess := session st in
  let uid := string_or (userId sess) "anonymous" in
  let sess :=
    match cart sess with
    | None => mkSession (userId sess) (Some (loadCartFromFile uid (disk st)))
    | Some _ => sess
    end in
  (mkState sess (disk st), Json_cart (cart_or_empty (cart sess))).

(** The price table of [router.get("/total")]. *)
Definition prices : list (Z * Z) :=
  [ (1, 199999); (2, 149999); (3, 179999); (4, 159999);
    (5, 189999); (6, 209999); (7, 229999); (8, 139999); (9, 169999) ]%Z.

(** The loop [for (const item of cart) total += price * item.qty], with exact
    sums and products. *)
Definition sum_prices (c : list CartItem) : num :=
  fold_left (fun total item =>
    let price := or_zero (record_get prices (productId item)) in
    total + price * qty item) c 0.

(** [cart.reduce((acc, i) => acc + i.qty, 0)], with exact sums. *)
Definition itemCount (c : list CartItem) : num :=
  fold_left (fun acc i => acc + qty i) c 0.

(** [router.get("/total")].  Before it computes anything the handler awaits
    a dynamic import and a fetch of the product list, whose results it does
    not use; [resolved] tells whether both settle without an error.  When
    they do not, the handler stops there and sends no answer of its own. *)
Definition total (resolved : bool) (st : State) : State * option Response :=
  let c := cart_or_empty (cart (session st)) in
  if resolved then (st, Some (Json_total (sum_prices c) (itemCount c)))
  else (st, None).

(** The stock table of [router.post("/add")]. *)
Definition stockMap : list (Z * Z) :=
  [ (1, 12); (2, 24); (3, 8); (4, 16); (5, 10); (6, 7); (7, 15); (8, 20); (9, 11) ]%Z.

(** [c.findIndex(f)]: the first index where [f] holds, or -1. *)
Fixpoint findIndex (f : CartItem -> bool) (c : list CartItem) : Z :=
  match c with
  | [] => (-1)%Z
  | i :: rest =>
    if f i then 0%Z
    else let k := findIndex f rest in if (k <? 0)%Z then (-1)%Z else (k + 1)%Z
  end.

(** [item.qty += q], with the exact sum. *)
Definition add_qty (q : num) (item : CartItem) : CartItem :=
  mkItem (productId item) (qty item + q).

(** [`user_${Date.now()}`] *)
Definition mint_userId (now : Z) : string := ("user_" +:+ pretty now)%string.

(** The block "Agregar o actualizar" of [router.post("/add")]. *)
Definition upsert (pid q : num) (c : list CartItem) : list CartItem :=
  let idx := findIndex (fun i => bool_decide (productId i = pid)) c in
  if (0 <=? idx)%Z then alter (add_qty q) (Z.to_nat idx) c
  else c ++ [mkItem pid q].

(** [router.post("/add")]; [now] is the reading of [Date.now()]. *)
Definition add (now : Z) (body : Body) (st : State) : State * Response :=
  if negb (truthy (body_productId body)) || loose_null (body_qty body)
  then (st, Bad_request AddRequired)
  else
    match body_productId body, body_qty body with
    | VNum pid, VNum q =>
      if bool_decide (q <= 0) then (st, Bad_request QtyNotPositive)
      else if bool_decide (pid < int 1) || bool_decide (int 9 < pid)
      then (st, Bad_request NoSuchProduct)
      else
        let c := cart_or_empty (cart (session st)) in
        let uid := string_or (userId (session st)) (mint_userId now) in
        let existing := List.find (fun i => bool_decide (productId i = pid)) c in
        let currentQty := match existing with Some i => qty i | None => 0 end in
        let newQty := currentQty + q in
        if gt_maybe newQty (record_get stockMap pid)
        then (mkState (mkSession (Some uid) (Some c)) (disk st),
              Bad_request (StockShort (record_get stockMap pid)))
        else
          let c' := upsert pid q c in
          (mkState (mkSession (Some uid) (Some c')) (saveCartToFile uid c' (disk st)),
           Json_ok c')
    | _, _ => (st, Bad_request AddNotNumbers)
    end.

(** [if (sess.userId) await saveCartToFile(sess.userId, sess.cart)] *)
Definition save_if_user (uid : option string) (c : list CartItem) (d : Disk) : Disk :=
  match uid with
  | Some u => if bool_decide (u = ""%string) then d else saveCartToFile u c d
  | None => d
  end.

(** [router.post("/remove")] *)
Definition remove (body : Body) (st : State) : State * Response :=
  if negb (truthy (body_productId body)) then (st, Bad_request RemoveRequired)
  else
    match body_productId body with
    | VNum pid =>
      let c' := List.filter (fun i => negb (bool_decide (productId i = pid)))
                  (cart_or_empty (cart (session st))) in
      let uid := userId (session st) in
      (mkState (mkSession uid (Some c')) (save_if_user uid c' (disk st)), Json_ok c')
    | _ => (st, Bad_request RemoveNotNumber)
    end.

(** [router.post("/clear")] *)
Definition clear (st : State) : State * Response :=
  let uid := userId (session st) in
  (mkState (mkSession uid (Some [])) (save_if_user uid [] (disk st)), Json_ok []).

(** ** The helper [calculateCartTotal] of the test suite *)

(** [new Map(products.map(p => [p.id, p.price]))]: a later entry replaces an
    earlier one with the same key. *)
Definition productMap (ps : list Product) : gmap Qc Qc :=
  fold_left (fun m p => <[p_id p := p_price p]> m) ps ∅.

Definition calculateCartTotal (c : list CartItem) (ps : list Product) : num :=
  let m := productMap ps in
  fold_left (fun total item =>
    let price := or_zero (m !! productId item) in
    total + price * qty item) c 0.

(** The catalogue of the test suite. *)
Definition mockProducts : list Product :=
  [ product 1 "Runner Azul" 199999 "/img/shoe_1.png" "Zapatilla ligera" 12;
    product 2 "Classic Rojo" 149999 "/img/shoe_2.png" "Clásico urbano" 24;
    product 7 "Pro Basketball Negro" 229999 "/img/shoe_7.png" "Diseño profesional" 15 ].

(** ** The cart as a state machine *)

Inductive Request : Type :=
| Add (now : Z) (body : Body)
| Remove (body : Body)
| Clear.

Definition handle (r : Request) (st : State) : State * Response :=
  match r with
  | Add now body => add now body st
  | Remove body => remove body st
  | Clear => clear st
  end.

(** The state after a sequence of requests of one session. *)
Definition run (rs : list Request) (st : State) : State :=
  fold_left (fun st r => fst (handle r st)) rs st.

(** The items of the session's cart. *)
Definition items (st : State) : list CartItem := cart_or_empty (cart (session st)).

(** ** The vocabulary of the specification *)

(** The rejection reasons of the validator. *)
Inductive Rejection : Type :=
| MissingOrWrongType
| InvalidQuantity
| UnknownProduct
| InsufficientStock.

Definition rejection (e : Error) : Rejection :=
  match e with
  | AddRequired | AddNotNumbers | RemoveRequired | RemoveNotNumber => MissingOrWrongType
  | QtyNotPositive => InvalidQuantity
  | NoSuchProduct => UnknownProduct
  | StockShort _ => InsufficientStock
  end.

(** The quantity a cart holds for a product id: that of its item, or 0. *)
Definition currentQty (pid : num) (c : list CartItem) : num :=
  match List.find (fun i => bool_decide (productId i = pid)) c with
  | Some i => qty i
  | None => 0
  end.

(** The entry the data file holds for a userId, whether or not the file can
    be read at the moment. *)
Definition entry (uid : string) (d : Disk) : option (list CartItem) :=
  match data_file d with
  | Stored allCarts | Unreadable allCarts => allCarts !! uid
  | Missing | Unparsable => None
  end.

(** An existing file whose read fails. *)
Definition read_fails (d : Disk) : bool :=
  match data_file d with
  | Unreadable _ => true
  | Missing | Unparsable | Stored _ => false
  end.

(** The reads and writes of the data file succeed: the file is absent or is
    read as a mapping, and [writeFile] succeeds. *)
Definition usable (d : Disk) : bool :=
  writable d &&
  match data_file d with
  | Missing | Stored _ => true
  | Unparsable | Unreadable _ => false
  end.

(** A session that has just begun for a known userId: no cart yet. *)
Definition new_session (uid : string) (d : Disk) : State :=
  mkState (mkSession (Some uid) None) d.

(** A request body with two integers. *)
Definition int_body (pid q : Z) : Body := mkBody (VNum (int pid)) (VNum (int q)).

(** Uniqueness invariant: at most one item per product id. *)
Definition unique_items (c : list CartItem) : Prop := NoDup (map productId c).

(** Stock ceiling: no item exceeds the stock the route knows for its
    product. *)
Definition within_stock (c : list CartItem) : Prop :=
  forall i, i ∈ c ->
  forall s, record_get stockMap (productId i) = Some s -> qty i <= s.

(** The price of a product id in a catalogue, 0 for an unknown one. *)
Definition price_in (ps : list Product) (pid : num) : num :=
  match List.find (fun p => bool_decide (p_id p = pid)) ps with
  | Some p => p_price p
  | None => 0
  end.

(** Sum over the items of price times quantity, and sum of the quantities. *)
Fixpoint spec_total (ps : list Product) (c : list CartItem) : num :=
  match c with
  | [] => 0
  | i :: rest => price_in ps (productId i) * qty i + spec_total ps rest
  end.

Fixpoint spec_count (c : list CartItem) : num :=
  match c with
  | [] => 0
  | i :: rest => qty i + spec_count rest
  end.

(** A non-negative integer: the quantities of the data model.  On such
    numbers, up to 2^53, the sums and products of binary64 are the exact
    ones. *)
Definition whole (n : num) : bool := isInteger n && bool_decide (0 <= n).

(** A cart on which the sums of the routes are exact: whole quantities, and
    sums that stay within 2^53. *)
Definition exact_sums (c : list CartItem) : bool :=
  forallb (fun i => whole (qty i)) c &&
  bool_decide (spec_total products c <= int (2 ^ 53)) &&
  bool_decide (spec_count c <= int (2 ^ 53)).

(** The capital and the small form of a letter, for the letters of Basic
    Latin and of Latin-1, the alphabets in which the catalogue is written.
    Four small letters of Latin-1 have their capital, or a second capital,
    outside it. *)
Inductive case_pair : N -> N -> Prop :=
| basic_latin (capital : N) :           (* A-Z, a-z *)
    (65 <= capital <= 90)%N -> case_pair capital (capital + 32)
| latin_1 (capital : N) :               (* U+00C0-U+00DE without U+00D7, U+00E0-U+00FE *)
    (192 <= capital <= 222)%N -> capital <> 215%N -> case_pair capital (capital + 32)
| y_diaeresis : case_pair 376 255       (* U+0178, U+00FF *)
| sharp_s : case_pair 7838 223          (* U+1E9E, U+00DF *)
| kelvin_sign : case_pair 8490 107      (* U+212A, k *)
| angstrom_sign : case_pair 8491 229.   (* U+212B, U+00E5 *)

(** Two code units are the same letter up to case: the same unit, a capital
    and its small letter, or two capitals of one small letter. *)
Definition same_letter (x y : N) : Prop :=
  x = y \/ case_pair x y \/ case_pair y x \/ exists small, case_pair x small /\ case_pair y small.

(** [t] occurs in [s] up to the case of letters: some window of [s] agrees
    with [t] unit by unit, up to case. *)
Definition same_letters (a b : list N) : Prop := Forall2 same_letter a b.

Definition contains_ci (s t : list N) : Prop :=
  exists pre mid post, s = pre ++ mid ++ post /\ same_letters mid t.

(** ** The other catalogue routes ([routes/products.ts]) *)

(** A number as [Number(text)] may produce it from a path or query
    parameter: not a number, an infinity, or a finite number. *)
Inductive jsnum : Type :=
| NaN
| PosInf
| NegInf
| Fin (n : num).

(** [a <= b] on such numbers; any comparison with [NaN] is false. *)
Definition js_le (a b : jsnum) : bool :=
  match a, b with
  | NaN, _ | _, NaN => false
  | NegInf, _ => true
  | _, PosInf => true
  | PosInf, _ => false
  | _, NegInf => false
  | Fin x, Fin y => bool_decide (x <= y)
  end.

(** [a || fallback]: [NaN] and 0 are falsy. *)
Definition num_or (a fallback : jsnum) : jsnum :=
  match a with
  | NaN => fallback
  | Fin n => if bool_decide (n = 0) then fallback else a
  | PosInf | NegInf => a
  end.

Inductive CatalogueResponse : Type :=
| Json_products (ps : list Product)     (* res.json(list) *)
| Json_product (p : Product)            (* res.json(product) *)
| Invalid_id                            (* 400 "ID inválido. Debe ser un número positivo." *)
| Not_found.                            (* 404 "Producto no encontrado" *)

(** [router.get("/")] *)
Definition list_products : CatalogueResponse := Json_products products.

(** [router.get("/:id")]; [id] is [Number(req.params.id)]. *)
Definition by_id (id : jsnum) : CatalogueResponse :=
  if match id with NaN => true | _ => false end || js_le id (Fin 0) then Invalid_id
  else
    match List.find (fun p => match id with
                              | Fin n => bool_decide (p_id p = n)
                              | _ => false
                              end) products with
    | Some p => Json_product p
    | None => Not_found
    end.

(** The filter of [router.get("/filter/price")] over a list of products;
    [qmin] and [qmax] are [Number(req.query.min)] and
    [Number(req.query.max)]. *)
Definition filter_price_in (ps : list Product) (qmin qmax : jsnum) : list Product :=
  let minPrice := num_or qmin (Fin 0) in
  let maxPrice := num_or qmax PosInf in
  List.filter (fun p =>
    js_le minPrice (Fin (p_price p)) && js_le (Fin (p_price p)) maxPrice) ps.

Definition filter_price (qmin qmax : jsnum) : CatalogueResponse :=
  Json_products (filter_price_in products qmin qmax).

(** ** The helpers of the test suite *)

(** White space and line terminators, as [trim] strips them. *)
Definition is_space (c : N) : bool :=
  existsb (N.eqb c) [9; 10; 11; 12; 13; 32; 160; 5760; 8232; 8233; 8239; 8287; 12288; 65279]%N
  || ((8192 <=? c) && (c <=? 8202))%N.

Fixpoint trimStart (s : list N) : list N :=
  match s with
  | [] => []
  | c :: rest => if is_space c then trimStart rest else s
  end.

Definition trim (s : list N) : list N := rev (trimStart (rev (trimStart s))).

(** [typeof id === 'number' && id > 0 && Number.isInteger(id)] *)
Definition validateProductId (id : value) : bool :=
  match id with
  | VNum n => bool_decide (0 < n) && isInteger n
  | _ => false
  end.

Definition validateQuantity (q : value) : bool :=
  match q with
  | VNum n => bool_decide (0 < n) && isInteger n
  | _ => false
  end.

Definition checkStock (pid q : num) (ps : list Product) : bool :=
  match List.find (fun p => bool_decide (p_id p = pid)) ps with
  | Some p => bool_decide (q <= p_stock p)
  | None => false
  end.

Definition searchProducts (query : list N) (ps : list Product) : list Product :=
  let term := trim (toLowerCase query) in
  List.filter (fun p =>
    includes (toLowerCase (p_name p)) term ||
    includes (toLowerCase (p_description p)) term) ps.

Definition filterByPriceRange (ps : list Product) (lo hi : jsnum) : list Product :=
  List.filter (fun p => js_le lo (Fin (p_price p)) && js_le (Fin (p_price p)) hi) ps.

Inductive Verdict : Type :=
| Valid
| Missing_data       (* "Datos requeridos faltantes" *)
| Bad_productId      (* "ProductId inválido" *)
| Bad_quantity       (* "Cantidad inválida" *)
| No_stock.          (* "Stock insuficiente" *)

(** [validateAddToCartRequest], which checks the stock against
    [mockProducts]. *)
Definition validateAddToCartRequest (req : Body) : Verdict :=
  if negb (truthy (body_productId req)) || loose_null (body_qty req) then Missing_data
  else if negb (validateProductId (body_productId req)) then Bad_productId
  else if negb (validateQuantity (body_qty req)) then Bad_quantity
  else
    match body_productId req, body_qty req with
    | VNum pid, VNum q => if checkStock pid q mockProducts then Valid else No_stock
    | _, _ => No_stock
    end.

(** ** The page script ([public/js/app.js]) *)

(** [filterBySearch], over the products the page has loaded. *)
Definition filterBySearch (allProducts : list Product) (searchTerm : list N) : list Product :=
  let term := trim (toLowerCase searchTerm) in
  match term with
  | [] => allProducts
  | _ :: _ =>
    List.filter (fun p =>
      includes (toLowerCase (p_name p)) term ||
      includes (toLowerCase (p_description p)) term) allProducts
  end.

(** [filterByPrice] *)
Definition filterByPrice (ps : list Product) (minPrice maxPrice : jsnum) : list Product :=
  List.filter (fun p =>
    let min := num_or minPrice (Fin 0) in
    let max := num_or maxPrice PosInf in
    js_le min (Fin (p_price p)) && js_le (Fin (p_price p)) max) ps.

(** [applyFilters], as a function of what it reads: the search box and the
    numbers the two price boxes convert to. *)
Definition applyFilters (allProducts : list Product) (searchTerm : list N)
    (rawMin rawMax : jsnum) : list Product :=
  let minPrice := num_or rawMin (Fin 0) in
  let maxPrice := num_or rawMax PosInf in
  filterByPrice (filterBySearch allProducts searchTerm) minPrice maxPrice.

(** ** The server ([server.ts]) *)

(** The middleware that gives every session a userId before any route runs:
    [user_${Date.now()}_${Math.random().toString(36).substring(7)}];
    [suffix] is the random part. *)
Definition assign_userId (now : Z) (suffix : string) (sess : Session) : Session :=
  if string_truthy (userId sess) then sess
  else mkSession (Some ("user_" +:+ pretty now +:+ "_" +:+ suffix)%string) (cart sess).

(** A cart request as the server handles it: the middleware, then the
    route. *)
Definition serve (now : Z) (suffix : string) (r : Request) (st : State) : State * Response :=
  handle r (mkState (assign_userId now suffix (session st)) (disk st)).

(** ** The security middleware ([middleware/auth.ts]) *)

(** *** Rate limiting *)

Record RateRecord : Type := mkRate {
  hits : Z;          (* count *)
  resetTime : Z
}.

Inductive RateAnswer : Type :=
| Next_plain                                  (* next() *)
| Next_headers (limit remaining reset : Z)    (* X-RateLimit-* headers, then next() *)
| Too_many (retryAfter : Z)                   (* 429 *)
| Invalid_time.                               (* RangeError of toISOString, no next() *)

(** The time values a [Date] can hold: at most 8.64e15 milliseconds from the
    epoch.  For any other, [new Date(t).toISOString()] throws a
    [RangeError]. *)
Definition valid_time (t : Z) : bool :=
  (-8640000000000000 <=? t)%Z && (t <=? 8640000000000000)%Z.

(** [Math.ceil(ms / 1000)] for an integer number of milliseconds. *)
Definition ceil_seconds (ms : Z) : Z := (- ((- ms) / 1000))%Z.

(** [rateLimiter(maxRequests, windowMs)] applied to a request from [ip] at
    time [now] (the reading of [Date.now()]); the limits are integers, as
    the defaults 100 and 60000 are.  On the path that sets the headers the
    reset time is formatted as a date, which throws when it is no valid time
    value: the count has been raised by then, and [next] is not called. *)
Definition rateLimiter (maxRequests windowMs : Z) (ip : string) (now : Z)
    (store : gmap string RateRecord) : gmap string RateRecord * RateAnswer :=
  match store !! ip with
  | None => (<[ip := mkRate 1 (now + windowMs)]> store, Next_plain)
  | Some record =>
    if (resetTime record <? now)%Z
    then (<[ip := mkRate 1 (now + windowMs)]> store, Next_plain)
    else
      let n := (hits record + 1)%Z in
      let store' := <[ip := mkRate n (resetTime record)]> store in
      if (maxRequests <? n)%Z
      then (store', Too_many (ceil_seconds (resetTime record - now)))
      else if valid_time (resetTime record)
      then (store', Next_headers maxRequests (maxRequests - n) (resetTime record))
      else (store', Invalid_time)
  end.

(** The answers to a series of requests from one address, at the given
    times. *)
Fixpoint limit_all (maxRequests windowMs : Z) (ip : string) (times : list Z)
    (store : gmap string RateRecord) : list RateAnswer :=
  match times with
  | [] => []
  | now :: rest =>
    let (store', answer) := rateLimiter maxRequests windowMs ip now store in
    answer :: limit_all maxRequests windowMs ip rest store'
  end.

Definition passed (a : RateAnswer) : bool :=
  match a with
  | Too_many _ | Invalid_time => false
  | Next_plain | Next_headers _ _ _ => true
  end.

(** *** Sanitising and validating *)

(** The characters that are removed: less-than, greater-than, apostrophe
    and double quote. *)
Definition dangerous (c : N) : bool :=
  ((c =? 60) || (c =? 62) || (c =? 39) || (c =? 34))%N.

(** [sanitizeString]; [None] is an input that is not a string. *)
Definition sanitizeString (input : option (list N)) : list N :=
  match input with
  | None => []
  | Some s => take 1000 (trim (List.filter (fun c => negb (dangerous c)) s))
  end.

(** The property of an object a destructuring reads; of two entries with
    one name the later one counts, as [JSON.parse] has it. *)
Fixpoint prop (name : string) (fields : list (string * value)) : value :=
  match fields with
  | [] => VUndefined
  | (k, v) :: rest =>
    if existsb (fun e => bool_decide (fst e = name)) rest then prop name rest
    else if bool_decide (k = name) then v
    else VUndefined
  end.

Definition prop_of (name : string) (data : value) : value :=
  match data with
  | VObj fields => prop name fields
  | _ => VUndefined
  end.

(** [typeof data === 'object'] *)
Definition is_object (data : value) : bool :=
  match data with
  | VNull | VArr _ | VObj _ => true
  | _ => false
  end.

(** [Number.isInteger(v)] on any value. *)
Definition isIntegerValue (v : value) : bool :=
  match v with
  | VNum n => isInteger n
  | _ => false
  end.

(** [Math.floor] *)
Definition floor (n : num) : num := int (Qfloor (this n)).

Inductive CartData : Type :=
| Data_invalid          (* "Datos inválidos" *)
| Data_bad_productId    (* "ProductId inválido" *)
| Data_bad_quantity     (* "Cantidad inválida (1-100)" *)
| Data_valid (sanitized : CartItem).

Definition validateCartData (data : value) : CartData :=
  if negb (truthy data) || negb (is_object data) then Data_invalid
  else
    match prop_of "productId" data, prop_of "qty" data with
    | VNum pid, q =>
      if negb (isInteger pid) || bool_decide (pid < int 1) || bool_decide (int 999 < pid)
      then Data_bad_productId
      else
        match q with
        | VNum n =>
          if negb (isInteger n) || bool_decide (n < int 1) || bool_decide (int 100 < n)
          then Data_bad_quantity
          else Data_valid (mkItem (floor pid) (floor n))
        | _ => Data_bad_quantity
        end
    | _, _ => Data_bad_productId
    end.

(** A query parameter: a string, or an array or object of the query parser,
    which the validator does not look into. *)
Inductive QueryValue : Type :=
| Query_string (s : list N)
| Query_nested.

Inductive InputCheck : Type :=
| Input_next                (* next() *)
| Bad_content_type.         (* 400 "Content-Type debe ser application/json" *)

(** [inputValidator]: the query after the call, and the answer. *)
Definition inputValidator (http_method : string) (contentType : option (list N))
    (query : list (string * QueryValue)) : list (string * QueryValue) * InputCheck :=
  let query' := map (fun kv =>
                  match snd kv with
                  | Query_string s => (fst kv, Query_string (sanitizeString (Some s)))
                  | Query_nested => kv
                  end) query in
  if existsb (fun m => bool_decide (m = http_method)) ["POST"; "PUT"; "PATCH"]%string
  then
    match contentType with
    | Some (c :: t) =>
      if includes (c :: t) (js "application/json") then (query', Input_next)
      else (query', Bad_content_type)
    | Some [] | None => (query', Bad_content_type)
    end
  else (query', Input_next).

(** *** Authentication gates *)

Record AuthSession : Type := mkAuth {
  auth_userId : option string;
  userRole : option string
}.

Inductive Role : Type := role_user | role_admin.

Definition role_name (r : Role) : string :=
  match r with
  | role_user => "user"
  | role_admin => "admin"
  end.

Inductive Gate : Type :=
| Proceed          (* next() *)
| Unauthorized     (* 401 *)
| Forbidden.       (* 403 *)

Definition requireAuth (sess : AuthSession) : Gate :=
  if negb (string_truthy (auth_userId sess)) then Unauthorized else Proceed.

Definition requireRole (role : Role) (sess : AuthSession) : Gate :=
  if negb (string_truthy (auth_userId sess)) || negb (string_truthy (userRole sess))
  then Unauthorized
  else if negb (bool_decide (userRole sess = Some (role_name role))) &&
          match role with role_admin => true | role_user => false end
  then Forbidden
  else Proceed.

(** *** The audit log *)

Record AuditLog : Type := mkLog {
  timestamp : Z;
  log_ip : string;
  method : string;
  path : string;
  log_userId : option string;
  statusCode : Z
}.

(** What the wrapped [res.send] does to the log: push, and drop the oldest
    entry beyond a thousand. *)
Definition record_log (log : AuditLog) (auditLogs : list AuditLog) : list AuditLog :=
  let logs := auditLogs ++ [log] in
  if (1000 <? Z.of_nat (length logs))%Z then tail logs else logs.

(** [a.slice(start)] for an integer [start]. *)
Definition slice_from {A} (start : Z) (a : list A) : list A :=
  let len := Z.of_nat (length a) in
  if (start <? 0)%Z then drop (Z.to_nat (Z.max (len + start) 0)) a
  else drop (Z.to_nat (Z.min start len)) a.

(** [getAuditLogs(limit)] *)
Definition getAuditLogs (limit : Z) (auditLogs : list AuditLog) : list AuditLog :=
  slice_from (- limit) auditLogs.

(** *** CSRF *)

Definition verifyCSRFToken (token : value) (sessionToken : string) : bool :=
  match token with
  | VStr t => bool_decide (t = sessionToken)
  | _ => false
  end.

(** [csrfProtection]: [header] is [req.headers['x-csrf-token']], [field] is
    [req.body._csrf], [fresh] the token [generateCSRFToken] would draw.  The
    result is the session's token afterwards and the answer. *)
Definition csrfProtection (http_method : string) (header : option string) (field : value)
    (fresh : string) (csrfToken : option string) : option string * Gate :=
  if existsb (fun m => bool_decide (m = http_method)) ["POST"; "PUT"; "DELETE"; "PATCH"]%string
  then
    let token := match header with
                 | Some h => if bool_decide (h = ""%string) then field else VStr h
                 | None => field
                 end in
    let sessionToken := string_or csrfToken fresh in
    if negb (verifyCSRFToken token sessionToken) then (Some sessionToken, Forbidden)
    else (Some sessionToken, Proceed)
  else (csrfToken, Proceed).

(** *** Users and passwords *)

Record User : Type := mkUser {
  user_id : list N;
  username : list N;
  passwordHash : list N;
  user_role : Role;
  createdAt : Z
}.

(** [s.split(':')] for the separator [sep]: the segments between the
    separators, at least one. *)
Fixpoint split_on (sep : N) (s : list N) : list (list N) :=
  match s with
  | [] => [[]]
  | c :: rest =>
    if (c =? sep)%N then [] :: split_on sep rest
    else
      match split_on sep rest with
      | seg :: segs => (c :: seg) :: segs
      | [] => [[c]]
      end
  end.

Section Passwords.
(** [crypto.pbkdf2Sync(password, salt, 10000, 64, 'sha256').toString('hex')],
    as a function of the password and the salt. *)
Variable pbkdf2 : list N -> list N -> list N.

(** [hashPassword(password, salt)]: an absent or empty salt is replaced by
    [random], the hex string [crypto.randomBytes(16)] gives.  The result is
    the hash and the salt used. *)
Definition hashPassword (password : list N) (salt : option (list N)) (random : list N)
    : list N * list N :=
  let useSalt := match salt with
                 | Some (c :: s) => c :: s
                 | Some [] | None => random
                 end in
  (pbkdf2 password useSalt, useSalt).

(** [verifyPassword]; the hash read from the record may be missing. *)
Definition verifyPassword (password : list N) (hash : option (list N)) (salt : list N)
    (random : list N) : bool :=
  let newHash := fst (hashPassword password (Some salt) random) in
  match hash with
  | Some h => bool_decide (h = newHash)
  | None => false
  end.

(** [createUser]; [random] is the salt drawn, [uuid] the id drawn and [now]
    the time.  The sign 58 is the colon. *)
Definition createUser (name password : list N) (role : Role) (random uuid : list N) (now : Z)
    (users : gmap (list N) User) : gmap (list N) User * User :=
  let (hash, salt) := hashPassword password None random in
  let user := mkUser uuid (sanitizeString (Some name)) (salt ++ 58%N :: hash) role now in
  (<[name := user]> users, user).

(** [authenticateUser] *)
Definition authenticateUser (name password : list N) (random : list N)
    (users : gmap (list N) User) : option User :=
  match users !! name with
  | None => None
  | Some user =>
    let parts := split_on 58 (passwordHash user) in
    let salt := match parts with s :: _ => s | [] => [] end in
    let hash := match parts with _ :: h :: _ => Some h | _ => None end in
    if verifyPassword password hash salt random then Some user else None
  end.
End Passwords.

(** ** Scenarios *)

(** The first product of the catalogue. *)
Definition runner : Product :=
  product 1 "Runner Azul" 199999 "/img/shoe_1.png"
    "Zapatilla ligera para correr, malla transpirable." 12.

(** User "u1" arrives; no data file exists yet and the disk accepts writes. *)
Definition shopper : State := new_session "u1" (mkDisk Missing true).

(** The same user holding the whole stock of the first product. *)
Definition stocked : State :=
  mkState (mkSession (Some "u1"%string) (Some [mkItem (int 1) (int 12)]))
          (mkDisk (Stored {["u1"%string := [mkItem (int 1) (int 12)]]}) true).

(** The cart of the worked example: two pairs of the first product and one
    of the second. *)
Definition example_cart : list CartItem := [mkItem (int 1) (int 2); mkItem (int 2) (int 1)].

(** A session of user "u2" that holds that cart. *)
Definition basket : State :=
  mkState (mkSession (Some "u2"%string) (Some example_cart)) (mkDisk Missing true).

(** A data file that holds the carts of two users; and the same file when
    its reads fail. *)
Definition two_carts : gmap string (list CartItem) :=
  {[ "u1"%string := [mkItem (int 1) (int 12)]; "u2"%string := example_cart ]}.

Definition shared : Disk := mkDisk (Stored two_carts) true.

Definition locked : Disk := mkDisk (Unreadable two_carts) true.

(** User "u1" on the shared data file, with the cart the file holds for
    them. *)
Definition returning : State :=
  mkState (mkSession (Some "u1"%string) (Some [mkItem (int 1) (int 12)])) shared.

(** A stand-in for the key derivation in examples: a string of digits. *)
Definition digits_kdf (password salt : list N) : list N :=
  map (fun c => (48 + c mod 10)%N) (password ++ salt).

(** * Properties *)

(** Closed comparisons of numbers, by evaluation. *)
Ltac qc_eval :=
  lazymatch goal with
  | |- (_ <= _)%Qc => apply Qcle_alt; vm_compute; discriminate
  | |- (_ < _)%Qc => apply Qclt_alt; vm_compute; reflexivity
  | |- _ <> _ => vm_compute; discriminate
  end.

(** ** Integer literals *)

Lemma int_this (z : Z) : (this (int z) == inject_Z z)%Q.
Proof. unfold int. simpl. apply Qred_correct. Qed.

Lemma int_lt (a b : Z) : int a < int b <-> (a < b)%Z.
Proof.
  unfold Qclt. rewrite !int_this. unfold Qlt. simpl. lia.
Qed.

Lemma int_le (a b : Z) : int a <= int b <-> (a <= b)%Z.
Proof.
  unfold Qcle. rewrite !int_this. unfold Qle. simpl. lia.
Qed.

Lemma int_inj (a b : Z) : int a = int b -> a = b.
Proof.
  intros H. assert (Hq : (this (int a) == this (int b))%Q) by (rewrite H; reflexivity).
  rewrite !int_this in Hq. unfold Qeq in Hq. simpl in Hq. lia.
Qed.

Lemma int_0 : int 0 = 0.
Proof. reflexivity. Qed.

Lemma int_nonzero (z : Z) : z <> 0%Z -> int z <> 0.
Proof. intros Hz H. apply Hz, int_inj. rewrite H. reflexivity. Qed.

(** A quantity that takes a cart within the stock beyond it is positive. *)
Lemma over_ceiling_positive (cur q s : Qc) : cur <= s -> s < cur + q -> 0 < q.
Proof.
  intros Hcur Hover. destruct (Qclt_le_dec 0 q) as [Hq|Hq]; [exact Hq|].
  exfalso. revert Hover. apply Qcle_not_lt.
  apply Qcle_trans with (cur + 0).
  - apply Qcplus_le_compat; [apply Qcle_refl | exact Hq].
  - rewrite Qcplus_0_r. exact Hcur.
Qed.

(** ** The data file *)

Section Persistence.
Implicit Types (u : string) (c : list CartItem) (d : Disk).

Lemma save_unparsable u c d : data_file d = Unparsable -> saveCartToFile u c d = d.
Proof. unfold saveCartToFile. intros ->. reflexivity. Qed.

Lemma save_readonly u c d : writable d = false -> saveCartToFile u c d = d.
Proof.
  unfold saveCartToFile. intros ->. destruct (read_or_empty _); reflexivity.
Qed.

Lemma usable_writable d : usable d = true -> writable d = true.
Proof. unfold usable. intros H. apply andb_prop in H. tauto. Qed.

Lemma usable_read d : usable d = true -> read_fails d = false.
Proof.
  unfold usable, read_fails. intros H. apply andb_prop in H as [_ H].
  destruct (data_file d); congruence.
Qed.

Lemma assign_key_own u c (allCarts : gmap string (list CartItem)) :
  u <> "__proto__"%string -> assign_key u c allCarts !! u = Some c.
Proof.
  intros Hu. unfold assign_key. rewrite (bool_decide_eq_false_2 _ Hu).
  apply lookup_insert_eq.
Qed.

Lemma assign_key_other u u' c (allCarts : gmap string (list CartItem)) :
  u' <> u -> assign_key u c allCarts !! u' = allCarts !! u'.
Proof.
  intros Hne. unfold assign_key. destruct (_ && _); [reflexivity|].
  apply lookup_insert_ne. congruence.
Qed.

Lemma save_entry u c d :
  u <> "__proto__"%string -> usable d = true ->
  entry u (saveCartToFile u c d) = Some c.
Proof.
  intros Hu Hd. pose proof (usable_writable d Hd) as Hw. revert Hd.
  unfold usable, saveCartToFile, entry. rewrite Hw.
  destruct (data_file d); cbn; try discriminate; intros _; apply assign_key_own, Hu.
Qed.

Lemma load_entry u d :
  read_fails d = false -> loadCartFromFile u d = cart_or_empty (entry u d).
Proof.
  unfold read_fails, loadCartFromFile, entry.
  destruct (data_file d); [reflexivity..|discriminate].
Qed.

Lemma save_writable u c d : writable (saveCartToFile u c d) = writable d.
Proof.
  unfold saveCartToFile. destruct (read_or_empty _); [|reflexivity].
  destruct (writable d) eqn:E; simpl; congruence.
Qed.

Lemma save_read_fails u c d : read_fails (saveCartToFile u c d) = read_fails d.
Proof.
  unfold saveCartToFile, read_fails.
  destruct (data_file d) eqn:Hf; cbn; rewrite ?Hf; trivial;
    destruct (writable d); cbn; rewrite ?Hf; reflexivity.
Qed.

Lemma save_usable u c d : usable d = true -> usable (saveCartToFile u c d) = true.
Proof.
  intros Hd. pose proof (usable_writable d Hd) as Hw. revert Hd.
  unfold usable, saveCartToFile. rewrite Hw.
  destruct (data_file d); cbn; congruence.
Qed.

(** What a save does to the entry of another user. *)
Lemma save_others u u' c d :
  u' <> u ->
  entry u' (saveCartToFile u c d) =
  if read_fails d && writable d then None else entry u' d.
Proof.
  intros Hne. unfold saveCartToFile, read_fails.
  destruct (data_file d) eqn:Hf; cbn;
    destruct (writable d); cbn; unfold entry; cbn; rewrite ?Hf; trivial;
    rewrite assign_key_other by exact Hne; trivial.
Qed.
End Persistence.

(** The entries of the other users are lost when the read of the file fails
    and the write succeeds: the failed read counts as the empty mapping. *)
Lemma save_drops_unread :
  entry "u2" locked = Some example_cart /\
  entry "u2" (saveCartToFile "u1" [mkItem (int 3) (int 1)] locked) = None.
Proof. split; reflexivity. Qed.

(** C10: saving one user's cart leaves the entry of every other userId as it
    was, unless the read of an existing file fails and the write succeeds:
    then the file is rewritten with the saved cart alone, and the entries of
    all other users are gone. *)
Theorem save_frame (u u' : string) (c : list CartItem) (d : Disk) :
  u' <> u ->
  entry u' (saveCartToFile u c d) =
  if read_fails d && writable d then None else entry u' d.
Proof. apply save_others. Qed.

Lemma save_frame_witness :
  entry "u2" shared = Some example_cart /\
  entry "u2" (saveCartToFile "u1" [mkItem (int 3) (int 1)] shared) = entry "u2" shared.
Proof.
  split; [reflexivity|].
  apply (save_frame "u1" "u2" [mkItem (int 3) (int 1)] shared). discriminate.
Defined.

(** ** The catalogue and the tables of the cart routes *)

Lemma products_cases (P : Product -> Prop) :
  Forall P products -> forall p, p ∈ products -> P p.
Proof. intros H p Hp. rewrite Forall_forall in H. auto. Qed.

(** The stock and price tables of the cart routes repeat the catalogue, and
    every catalogue id is an integer from 1 to 9. *)
Lemma catalogue_tables (p : Product) :
  p ∈ products ->
  int 1 <= p_id p /\ p_id p <= int 9 /\
  record_get stockMap (p_id p) = Some (p_stock p) /\
  record_get prices (p_id p) = Some (p_price p).
Proof.
  revert p. apply products_cases. unfold products.
  repeat (apply Forall_cons; split; [
    repeat split; try reflexivity; apply int_le; lia |]).
  apply Forall_nil. trivial.
Qed.

(** A key found in a table of integer literals is one of its keys. *)
Lemma record_get_Some (tbl : list (Z * Z)) (k v : Qc) :
  record_get tbl k = Some v -> exists key val, (key, val) ∈ tbl /\ k = int key /\ v = int val.
Proof.
  induction tbl as [|[key val] tbl IH]; simpl; [discriminate|].
  case_bool_decide as Hk.
  - intros [= <-]. exists key, val. split; [left | auto].
  - intros H. destruct (IH H) as (key' & val' & Hin & ? & ?).
    exists key', val'. split; [right; trivial | auto].
Qed.

(** An id with an entry in the stock table is the id of a catalogue product
    with that stock. *)
Lemma stockMap_catalogue (pid s : Qc) :
  record_get stockMap pid = Some s ->
  exists p, p ∈ products /\ p_id p = pid /\ p_stock p = s.
Proof.
  intros H. apply record_get_Some in H as (key & val & Hin & -> & ->).
  assert (Hex : existsb (fun p => bool_decide (p_id p = int key) &&
                                  bool_decide (p_stock p = int val)) products = true).
  { unfold stockMap in Hin.
    repeat (apply elem_of_cons in Hin as [[= -> ->] | Hin]; [reflexivity |]).
    inversion Hin. }
  apply existsb_exists in Hex as (p & Hp & Hb).
  apply andb_true_iff in Hb as [H1 H2].
  apply bool_decide_eq_true in H1, H2.
  exists p. rewrite list_elem_of_In. auto.
Qed.

(** ** Insertion into the cart *)

Section Upsert.
Variables pid q : Qc.

Lemma findIndex_lower (f : CartItem -> bool) (c : list CartItem) :
  (-1 <= findIndex f c)%Z.
Proof.
  induction c as [|i c IH]; simpl; [lia|].
  destruct (f i); [lia|]. destruct (Z.ltb_spec (findIndex f c) 0); lia.
Qed.

(** The update of the cart, item by item: the first item of the product
    takes the quantity, and an item is appended when the end is reached. *)
Lemma upsert_nil : upsert pid q [] = [mkItem pid q].
Proof. reflexivity. Qed.

Lemma upsert_cons (i : CartItem) (c : list CartItem) :
  upsert pid q (i :: c) =
  if bool_decide (productId i = pid) then add_qty q i :: c else i :: upsert pid q c.
Proof.
  unfold upsert. simpl.
  destruct (bool_decide (productId i = pid)); [reflexivity|].
  pose proof (findIndex_lower (fun i => bool_decide (productId i = pid)) c) as Hlo.
  destruct (Z.ltb_spec (findIndex (fun i => bool_decide (productId i = pid)) c) 0)
    as [Hneg|Hpos].
  - replace (0 <=? findIndex _ c)%Z with false by (symmetry; apply Z.leb_gt; lia).
    reflexivity.
  - replace (0 <=? findIndex _ c + 1)%Z with true by (symmetry; apply Z.leb_le; lia).
    replace (0 <=? findIndex _ c)%Z with true by (symmetry; apply Z.leb_le; lia).
    rewrite Z2Nat.inj_add by lia. rewrite Nat.add_comm. reflexivity.
Qed.

Lemma upsert_ids_absent (c : list CartItem) :
  pid ∉ map productId c -> upsert pid q c = c ++ [mkItem pid q].
Proof.
  induction c as [|i c IH]; intros Hn; [reflexivity|].
  rewrite upsert_cons. simpl in Hn.
  rewrite not_elem_of_cons in Hn. destruct Hn as [Hi Hc].
  rewrite bool_decide_eq_false_2 by congruence.
  rewrite IH by assumption. reflexivity.
Qed.

(** The product ids of the cart after the update. *)
Lemma upsert_ids (c : list CartItem) :
  map productId (upsert pid q c) =
  if bool_decide (pid ∈ map productId c) then map productId c
  else map productId c ++ [pid].
Proof.
  induction c as [|i c IH].
  - rewrite bool_decide_eq_false_2 by apply not_elem_of_nil. reflexivity.
  - rewrite upsert_cons. simpl.
    destruct (decide (productId i = pid)) as [Hi|Hi].
    + rewrite (bool_decide_eq_true_2 _ Hi).
      rewrite bool_decide_eq_true_2 by (rewrite <- Hi; left). reflexivity.
    + rewrite (bool_decide_eq_false_2 _ Hi). simpl. rewrite IH.
      destruct (decide (pid ∈ map productId c)) as [Hc|Hc].
      * rewrite (bool_decide_eq_true_2 _ Hc).
        rewrite bool_decide_eq_true_2 by (right; trivial). reflexivity.
      * rewrite (bool_decide_eq_false_2 _ Hc).
        rewrite bool_decide_eq_false_2; [reflexivity|].
        rewrite not_elem_of_cons. split; congruence.
Qed.

Lemma upsert_unique (c : list CartItem) :
  unique_items c -> unique_items (upsert pid q c).
Proof.
  unfold unique_items. intros Hc. rewrite upsert_ids.
  case_bool_decide as Hin; [assumption|].
  apply NoDup_app. split; [assumption|]. split.
  - intros x Hx Hx'. apply list_elem_of_singleton in Hx'. subst. contradiction.
  - apply NoDup_singleton.
Qed.

(** With at most one item per product, the items of the product after the
    update are exactly one, holding the former quantity plus [q]. *)
Lemma upsert_items_of (c : list CartItem) :
  unique_items c ->
  List.filter (fun i => bool_decide (productId i = pid)) (upsert pid q c) =
  [mkItem pid (currentQty pid c + q)].
Proof.
  unfold unique_items, currentQty. induction c as [|i c IH]; intros Hu.
  - simpl. rewrite bool_decide_eq_true_2 by reflexivity.
    rewrite Qcplus_0_l. reflexivity.
  - rewrite upsert_cons. simpl in *. apply NoDup_cons in Hu as [Hi Hu].
    destruct (bool_decide (productId i = pid)) eqn:Hm.
    + simpl. rewrite Hm.
      apply bool_decide_eq_true in Hm. f_equal.
      * unfold add_qty. rewrite Hm. reflexivity.
      * rewrite <- Hm in *. clear -Hi. induction c as [|j c IH]; [reflexivity|].
        simpl in *. rewrite not_elem_of_cons in Hi. destruct Hi as [Hj Hc].
        rewrite bool_decide_eq_false_2 by congruence. auto.
    + simpl. rewrite Hm. auto.
Qed.

(** An item of the product keeps its place. *)
Lemma upsert_in_place (c : list CartItem) (k : nat) (i : CartItem) :
  unique_items c -> c !! k = Some i -> productId i = pid ->
  upsert pid q c = <[k := mkItem pid (qty i + q)]> c.
Proof.
  unfold unique_items. revert k. induction c as [|j c IH]; intros k Hu Hk Hi.
  - discriminate.
  - rewrite upsert_cons. simpl in Hu. apply NoDup_cons in Hu as [Hj Hu].
    destruct k as [|k]; simpl in *.
    + injection Hk as ->. rewrite bool_decide_eq_true_2 by assumption.
      unfold add_qty. rewrite Hi. reflexivity.
    + rewrite bool_decide_eq_false_2.
      * f_equal. eauto.
      * intros Hjp. apply Hj. rewrite Hjp, <- Hi.
        apply list_elem_of_fmap. exists i. split; [reflexivity|].
        apply list_elem_of_lookup. eauto.
Qed.
End Upsert.

(** ** Adding to the cart *)

Section Add.
Variables (now : Z) (st : State).

Local Abbreviation uid := (string_or (userId (session st)) (mint_userId now)).

Lemma truthy_nonzero (n : Qc) : n <> 0 -> truthy (VNum n) = true.
Proof. intros H. simpl. rewrite bool_decide_eq_false_2 by assumption. reflexivity. Qed.

Lemma one_le_nonzero (n : Qc) : int 1 <= n -> n <> 0.
Proof. intros H ->. revert H. apply Qclt_not_le. reflexivity. Qed.

(** The request passes every rule: the cart is updated and saved. *)
Lemma add_accepted (pid q s : Qc) :
  0 < q -> int 1 <= pid -> pid <= int 9 ->
  record_get stockMap pid = Some s ->
  currentQty pid (items st) + q <= s ->
  let c' := upsert pid q (items st) in
  add now (mkBody (VNum pid) (VNum q)) st =
  (mkState (mkSession (Some uid) (Some c')) (saveCartToFile uid c' (disk st)), Json_ok c').
Proof.
  intros Hq Hlo Hhi Hs Hle c'. unfold add. cbn [body_productId body_qty].
  rewrite truthy_nonzero by (apply one_le_nonzero; assumption). cbn [negb orb loose_null].
  rewrite (bool_decide_eq_false_2 (q <= 0)) by (apply Qclt_not_le; assumption).
  rewrite (bool_decide_eq_false_2 (pid < int 1)) by (apply Qcle_not_lt; assumption).
  rewrite (bool_decide_eq_false_2 (int 9 < pid)) by (apply Qcle_not_lt; assumption).
  cbn [orb]. rewrite Hs. unfold gt_maybe. fold (items st).
  fold (currentQty pid (items st)).
  rewrite bool_decide_eq_false_2 by (apply Qcle_not_lt; assumption).
  reflexivity.
Qed.

(** The request fails the stock rule only: nothing but the session's
    bookkeeping changes. *)
Lemma add_refused (pid q s : Qc) :
  0 < q -> int 1 <= pid -> pid <= int 9 ->
  record_get stockMap pid = Some s ->
  s < currentQty pid (items st) + q ->
  add now (mkBody (VNum pid) (VNum q)) st =
  (mkState (mkSession (Some uid) (Some (items st))) (disk st),
   Bad_request (StockShort (Some s))).
Proof.
  intros Hq Hlo Hhi Hs Hlt. unfold add. cbn [body_productId body_qty].
  rewrite truthy_nonzero by (apply one_le_nonzero; assumption). cbn [negb orb loose_null].
  rewrite (bool_decide_eq_false_2 (q <= 0)) by (apply Qclt_not_le; assumption).
  rewrite (bool_decide_eq_false_2 (pid < int 1)) by (apply Qcle_not_lt; assumption).
  rewrite (bool_decide_eq_false_2 (int 9 < pid)) by (apply Qcle_not_lt; assumption).
  cbn [orb]. rewrite Hs. unfold gt_maybe. fold (items st).
  fold (currentQty pid (items st)).
  rewrite bool_decide_eq_true_2 by assumption.
  reflexivity.
Qed.

(** What a response of [add] tells about the request. *)
Lemma add_stock_short (body : Body) (st' : State) (d : option Qc) :
  add now body st = (st', Bad_request (StockShort d)) ->
  exists pid, body_productId body = VNum pid /\ d = record_get stockMap pid /\ is_Some d.
Proof.
  unfold add. destruct (negb _ || _); [discriminate|].
  destruct (body_productId body) as [| | |pid| | |]; try discriminate.
  destruct (body_qty body) as [| | |q| | |]; try discriminate.
  destruct (bool_decide (q <= 0)); [discriminate|].
  destruct (bool_decide _ || bool_decide _); [discriminate|].
  destruct (record_get stockMap pid) as [s|] eqn:Hs; unfold gt_maybe.
  - destruct (bool_decide _); [|discriminate].
    intros [= _ <-]. exists pid. eauto.
  - discriminate.
Qed.

Lemma add_ok_state (body : Body) (st' : State) (c' : list CartItem) :
  add now body st = (st', Json_ok c') ->
  st' = mkState (mkSession (Some uid) (Some c')) (saveCartToFile uid c' (disk st)).
Proof.
  unfold add. destruct (negb _ || _); [discriminate|].
  destruct (body_productId body) as [| | |pid| | |]; try discriminate.
  destruct (body_qty body) as [| | |q| | |]; try discriminate.
  destruct (bool_decide (q <= 0)); [discriminate|].
  destruct (bool_decide _ || bool_decide _); [discriminate|].
  destruct (gt_maybe _ _); [discriminate|].
  intros [= <- <-]. reflexivity.
Qed.
End Add.

Lemma string_or_nonempty (s : option string) (fallback : string) :
  fallback <> ""%string -> string_or s fallback <> ""%string.
Proof.
  intros Hf. unfold string_or. destruct s as [u|]; [|assumption].
  case_bool_decide; assumption.
Qed.

Lemma mint_userId_nonempty (now : Z) : mint_userId now <> ""%string.
Proof. unfold mint_userId. simpl. discriminate. Qed.

(** ** Claims about [add] *)

(** C1: for a catalogue product, a positive integer quantity that fits in the
    remaining stock, and a cart with at most one item per product that holds
    a whole number of the product (a non-negative integer, as the quantities
    of the data model are), [add] succeeds; the cart it returns (and keeps in
    the session) has exactly one item of the product, with the former
    quantity plus the added one; an item that existed keeps its index, and
    otherwise the new item is the last. *)
Theorem add_in_stock (now : Z) (st : State) (p : Product) (q : Z) :
  p ∈ products ->
  unique_items (items st) ->
  whole (currentQty (p_id p) (items st)) = true ->
  (0 < q)%Z ->
  currentQty (p_id p) (items st) + int q <= p_stock p ->
  exists st',
    add now (mkBody (VNum (p_id p)) (VNum (int q))) st = (st', Json_ok (items st')) /\
    List.filter (fun i => bool_decide (productId i = p_id p)) (items st') =
      [mkItem (p_id p) (currentQty (p_id p) (items st) + int q)] /\
    (forall k i, items st !! k = Some i -> productId i = p_id p ->
       items st' = <[k := mkItem (p_id p) (qty i + int q)]> (items st)) /\
    (p_id p ∉ map productId (items st) ->
       items st' = items st ++ [mkItem (p_id p) (int q)]).
Proof.
  intros Hp Hu _ Hq Hfit.
  destruct (catalogue_tables p Hp) as (Hlo & Hhi & Hstock & _).
  assert (Hq' : 0 < int q) by (rewrite <- int_0; apply int_lt; assumption).
  eexists (mkState (mkSession _ (Some (upsert (p_id p) (int q) (items st)))) _).
  split; [|split; [|split]]; unfold items at 1; cbn [session cart cart_or_empty].
  - apply (add_accepted now st _ _ _ Hq' Hlo Hhi Hstock Hfit).
  - apply upsert_items_of. assumption.
  - intros k i Hk Hi. apply upsert_in_place; assumption.
  - apply upsert_ids_absent.
Qed.

Lemma add_in_stock_witness :
  exists st',
    add 0 (mkBody (VNum (p_id runner)) (VNum (int 7))) basket = (st', Json_ok (items st')) /\
    List.filter (fun i => bool_decide (productId i = p_id runner)) (items st') =
      [mkItem (p_id runner) (currentQty (p_id runner) (items basket) + int 7)] /\
    (forall k i, items basket !! k = Some i -> productId i = p_id runner ->
       items st' = <[k := mkItem (p_id runner) (qty i + int 7)]> (items basket)) /\
    (p_id runner ∉ map productId (items basket) ->
       items st' = items basket ++ [mkItem (p_id runner) (int 7)]).
Proof.
  apply (add_in_stock 0 basket runner 7).
  - apply list_elem_of_here.
  - eapply bool_decide_eq_true_1. vm_compute. reflexivity.
  - reflexivity.
  - lia.
  - qc_eval.
Defined.

(** C2: for a catalogue product, an integer qty and a cart that holds an
    integer number of the product, when the quantity in the cart plus qty
    exceeds the stock, [add] is rejected for insufficient stock; the items of
    the cart and the data file are as before.  The cart is one that respects
    the stock of the product, as every cart built by the routes does, or else
    the request is one that passes the quantity rule.  (Between integers the
    sum exceeds the stock by at least one, which no rounding of the sum can
    hide.) *)
Theorem add_over_stock (now : Z) (st : State) (p : Product) (q : Z) :
  p ∈ products ->
  isInteger (currentQty (p_id p) (items st)) = true ->
  currentQty (p_id p) (items st) <= p_stock p \/ (0 < q)%Z ->
  p_stock p < currentQty (p_id p) (items st) + int q ->
  exists st' e,
    add now (mkBody (VNum (p_id p)) (VNum (int q))) st = (st', Bad_request e) /\
    rejection e = InsufficientStock /\
    items st' = items st /\
    disk st' = disk st.
Proof.
  intros Hp _ Hvalid Hover.
  destruct (catalogue_tables p Hp) as (Hlo & Hhi & Hstock & _).
  assert (Hq : 0 < int q).
  { destruct Hvalid as [Hcur|Hq]; [|rewrite <- int_0; apply int_lt; exact Hq].
    exact (over_ceiling_positive _ _ _ Hcur Hover). }
  do 2 eexists. split; [|split; [|split]].
  - apply (add_refused now st _ _ _ Hq Hlo Hhi Hstock Hover).
  - reflexivity.
  - reflexivity.
  - reflexivity.
Qed.

Lemma add_over_stock_witness :
  exists st' e,
    add 0 (mkBody (VNum (p_id runner)) (VNum (int 1))) stocked = (st', Bad_request e) /\
    rejection e = InsufficientStock /\
    items st' = items stocked /\
    disk st' = disk stocked.
Proof.
  apply (add_over_stock 0 stocked runner 1).
  - apply list_elem_of_here.
  - reflexivity.
  - left. qc_eval.
  - qc_eval.
Defined.

(** The scenario of the specification: twelve pairs fit, a thirteenth does
    not, and the cart stays at twelve. *)
Example scenario_twelve_then_one :
  add 0 (int_body 1 12) shopper = (stocked, Json_ok [mkItem (int 1) (int 12)]) /\
  add 1 (int_body 1 1) stocked = (stocked, Bad_request (StockShort (Some (int 12)))).
Proof. split; reflexivity. Qed.

Example scenario_unknown_product :
  add 0 (int_body 999 1) (new_session "u2" (mkDisk Missing true)) =
  (new_session "u2" (mkDisk Missing true), Bad_request NoSuchProduct).
Proof. reflexivity. Qed.

(** C4, as stated, fails: with twelve pairs in the cart the rejection still
    reports twelve available, not twelve minus twelve. *)
Lemma stock_report_not_remaining :
  snd (add 0 (int_body 1 1) stocked) = Bad_request (StockShort (Some (int 12))) /\
  p_stock runner - currentQty (p_id runner) (items stocked) = 0 /\
  Some (int 12) <> Some (p_stock runner - currentQty (p_id runner) (items stocked)).
Proof.
  split; [reflexivity|]. split; [apply Qc_is_canon; reflexivity|].
  qc_eval.
Qed.

(** C4, amended: every rejection of [add] for insufficient stock reports the
    full stock of the requested catalogue product, whatever the cart holds. *)
Theorem stock_report_full (now : Z) (body : Body) (st st' : State) (d : option Qc) :
  add now body st = (st', Bad_request (StockShort d)) ->
  exists p, p ∈ products /\ body_productId body = VNum (p_id p) /\ d = Some (p_stock p).
Proof.
  intros H. apply add_stock_short in H as (pid & Hpid & Hd & [s Hs]).
  subst d. destruct (stockMap_catalogue pid s Hs) as (p & Hp & <- & <-).
  exists p. auto.
Qed.

Lemma stock_report_full_witness :
  exists p, p ∈ products /\ body_productId (int_body 1 1) = VNum (p_id p) /\
            Some (int 12) = Some (p_stock p).
Proof.
  apply (stock_report_full 1 (int_body 1 1) stocked stocked (Some (int 12))).
  reflexivity.
Defined.

(** C3, as stated, fails at 0: a present integer, yet the first rule turns
    the request away as incomplete. *)
Lemma first_rule_rejects_zero :
  exists e, add 0 (int_body 0 1) shopper = (shopper, Bad_request e) /\
            rejection e = MissingOrWrongType.
Proof. exists AddRequired. split; reflexivity. Qed.

(** The route asks for numbers, not for integers: one and a half pairs pass
    every rule and enter the cart. *)
Example add_fraction :
  isInteger (Q2Qc (3 # 2)) = false /\
  snd (add 0 (mkBody (VNum (int 1)) (VNum (Q2Qc (3 # 2)))) shopper) =
    Json_ok [mkItem (int 1) (Q2Qc (3 # 2))].
Proof. split; reflexivity. Qed.

(** C3, amended: [add] is rejected for a missing or wrongly typed field,
    before any later rule and with the state untouched, whenever productId
    or qty is not a number (absent, null, a string, ...) or productId is the
    number 0; and it is not rejected for that reason when productId is a
    non-zero integer and qty is an integer. *)
Theorem add_type_rule (now : Z) (body : Body) (st : State) :
  (is_number (body_productId body) = false \/
   is_number (body_qty body) = false \/
   body_productId body = VNum 0 ->
   exists e, add now body st = (st, Bad_request e) /\ rejection e = MissingOrWrongType) /\
  (forall p q : Z, p <> 0%Z -> body = int_body p q ->
   forall e, snd (add now body st) = Bad_request e -> rejection e <> MissingOrWrongType).
Proof.
  split.
  - intros H. unfold add.
    destruct (negb (truthy (body_productId body)) || loose_null (body_qty body)) eqn:Hreq.
    { exists AddRequired. split; reflexivity. }
    apply orb_false_iff in Hreq as [Ht Hn]. apply negb_false_iff in Ht.
    destruct (body_productId body) as [| | |pid| | |] eqn:Hp;
      try (exists AddNotNumbers; split; reflexivity).
    destruct (body_qty body) as [| | |q| | |] eqn:Hq;
      try (exists AddNotNumbers; split; reflexivity).
    exfalso. destruct H as [H|[H|H]]; try discriminate.
    injection H as ->. discriminate.
  - intros p q Hp -> e. unfold add, int_body. cbn [body_productId body_qty].
    rewrite truthy_nonzero by (apply int_nonzero; assumption). cbn [negb orb loose_null].
    repeat match goal with
           | |- context [if ?b then _ else _] => destruct b
           end; cbn [snd]; intros [= <-]; discriminate.
Qed.

Lemma add_type_rule_witness :
  (exists e, add 0 (mkBody (VStr "1") (VNum (int 1))) shopper = (shopper, Bad_request e) /\
             rejection e = MissingOrWrongType) /\
  (forall e, snd (add 0 (int_body 1 13) shopper) = Bad_request e ->
             rejection e <> MissingOrWrongType).
Proof.
  split.
  - apply (proj1 (add_type_rule 0 (mkBody (VStr "1") (VNum (int 1))) shopper)).
    left. reflexivity.
  - apply (proj2 (add_type_rule 0 (int_body 1 13) shopper) 1%Z 13%Z); [lia | reflexivity].
Defined.

(** ** Claims about [remove] *)

Lemma filter_others_spec (pid : Qc) (c : list CartItem) (i : CartItem) :
  i ∈ List.filter (fun i => negb (bool_decide (productId i = pid))) c <->
  i ∈ c /\ productId i <> pid.
Proof.
  rewrite !list_elem_of_In, filter_In, negb_true_iff, bool_decide_eq_false. reflexivity.
Qed.

Lemma filter_others_sublist (pid : Qc) (c : list CartItem) :
  sublist (List.filter (fun i => negb (bool_decide (productId i = pid))) c) c.
Proof.
  induction c as [|i c IH]; simpl; [constructor|].
  destruct (negb _); [apply sublist_skip | apply sublist_cons]; assumption.
Qed.

Lemma filter_others_id (pid : Qc) (c : list CartItem) :
  (forall i, i ∈ c -> productId i <> pid) ->
  List.filter (fun i => negb (bool_decide (productId i = pid))) c = c.
Proof.
  induction c as [|i c IH]; intros H; simpl; [reflexivity|].
  rewrite bool_decide_eq_false_2 by (apply H; left). simpl. f_equal.
  apply IH. intros j Hj. apply H. right. assumption.
Qed.

Lemma filter_others_unique (pid : Qc) (c : list CartItem) :
  unique_items c ->
  unique_items (List.filter (fun i => negb (bool_decide (productId i = pid))) c).
Proof.
  unfold unique_items. intros H.
  eapply sublist_NoDup; [exact H|].
  apply (fmap_sublist productId), filter_others_sublist.
Qed.

(** C7, as stated, fails at 0: a present integer, yet [remove] rejects it. *)
Lemma remove_rejects_zero :
  exists e, remove (mkBody (VNum (int 0)) VUndefined) shopper = (shopper, Bad_request e) /\
            rejection e = MissingOrWrongType.
Proof. exists RemoveRequired. split; reflexivity. Qed.

(** C7, amended: for every non-zero integer productId (negative ones
    included) [remove] succeeds and returns the cart without the items of
    that product, the others in their order; when no item matches, and so on
    an empty cart, the cart is returned as it was.  A rejection of [remove]
    is always for a missing or wrongly typed productId, and happens only
    when productId is not a number or is 0. *)
Theorem remove_nonzero (body : Body) (st : State) (p : Z) :
  p <> 0%Z ->
  body_productId body = VNum (int p) ->
  (exists st',
     remove body st = (st', Json_ok (items st')) /\
     (forall i, i ∈ items st' <-> i ∈ items st /\ productId i <> int p) /\
     sublist (items st') (items st) /\
     ((forall i, i ∈ items st -> productId i <> int p) -> items st' = items st)) /\
  (forall body' e, snd (remove body' st) = Bad_request e ->
     rejection e = MissingOrWrongType /\
     (is_number (body_productId body') = false \/ body_productId body' = VNum 0)).
Proof.
  intros Hp Hb. split.
  - unfold remove. rewrite Hb. rewrite truthy_nonzero by (apply int_nonzero; assumption).
    cbn [negb]. eexists (mkState (mkSession _ (Some _)) _).
    split; [reflexivity|]. unfold items at 1 3 5. cbn [session cart cart_or_empty].
    split; [apply filter_others_spec|]. split; [apply filter_others_sublist|].
    apply filter_others_id.
  - intros body' e. unfold remove.
    destruct (body_productId body') as [| |b|n|s|xs|fs]; simpl;
      try (intros [= <-]; split; [reflexivity | left; reflexivity]).
    + destruct b; simpl; intros [= <-]; split; try reflexivity; left; reflexivity.
    + case_bool_decide as Hn; simpl; [|discriminate].
      intros [= <-]. split; [reflexivity|]. right. rewrite Hn. reflexivity.
    + case_bool_decide; simpl; intros [= <-]; split; try reflexivity; left; reflexivity.
Qed.

Lemma remove_nonzero_witness :
  (exists st',
     remove (mkBody (VNum (int (-3))) VUndefined) stocked = (st', Json_ok (items st')) /\
     (forall i, i ∈ items st' <-> i ∈ items stocked /\ productId i <> int (-3)) /\
     sublist (items st') (items stocked) /\
     ((forall i, i ∈ items stocked -> productId i <> int (-3)) ->
      items st' = items stocked)) /\
  (forall body' e, snd (remove body' stocked) = Bad_request e ->
     rejection e = MissingOrWrongType /\
     (is_number (body_productId body') = false \/ body_productId body' = VNum 0)).
Proof.
  apply (remove_nonzero (mkBody (VNum (int (-3))) VUndefined) stocked (-3)).
  - lia.
  - reflexivity.
Defined.

(** ** The uniqueness invariant *)

Lemma add_unique (now : Z) (body : Body) (st : State) :
  unique_items (items st) -> unique_items (items (fst (add now body st))).
Proof.
  intros Hu. unfold add.
  repeat match goal with
         | |- context [if ?b then _ else _] => destruct b
         | |- context [match ?v with VUndefined => _ | _ => _ end] => destruct v
         end; cbn [fst]; try assumption;
    unfold items at 1; cbn [session cart cart_or_empty]; try assumption.
  apply upsert_unique. assumption.
Qed.

Lemma remove_unique (body : Body) (st : State) :
  unique_items (items st) -> unique_items (items (fst (remove body st))).
Proof.
  intros Hu. unfold remove.
  destruct (negb _); [assumption|].
  destruct (body_productId body); cbn [fst]; try assumption.
  unfold items at 1. cbn [session cart cart_or_empty].
  apply filter_others_unique. assumption.
Qed.

Lemma clear_unique (st : State) : unique_items (items (fst (clear st))).
Proof. apply NoDup_nil. trivial. Qed.

Lemma handle_unique (r : Request) (st : State) :
  unique_items (items st) -> unique_items (items (fst (handle r st))).
Proof.
  intros Hu. destruct r as [now body|body|]; cbn [handle].
  - apply add_unique, Hu.
  - apply remove_unique, Hu.
  - apply clear_unique.
Qed.

Lemma run_unique (rs : list Request) (st : State) :
  unique_items (items st) -> unique_items (items (run rs st)).
Proof.
  revert st. induction rs as [|r rs IH]; intros st Hu; [assumption|].
  simpl. apply IH, handle_unique, Hu.
Qed.

(** C5: whatever requests to add, remove and clear a session makes, starting
    from an empty cart, its cart never holds two items of one product. *)
Theorem reachable_unique (rs : list Request) (st : State) :
  items st = [] -> unique_items (items (run rs st)).
Proof.
  intros H0. apply run_unique. rewrite H0. apply NoDup_nil. trivial.
Qed.

Lemma reachable_unique_witness :
  unique_items (items (run [Add 0 (int_body 1 2); Add 1 (int_body 2 1);
                            Add 2 (int_body 1 3); Remove (int_body 2 0); Clear;
                            Add 3 (int_body 9 4)] shopper)).
Proof. apply reachable_unique. reflexivity. Defined.

(** ** The stock ceiling *)





(** In such a cart the quantity of a catalogue product is within its stock. *)
Lemma within_stock_currentQty (p : Product) (c : list CartItem) :
  p ∈ products -> within_stock c -> currentQty (p_id p) c <= p_stock p.
Proof.
  intros Hp Hw. destruct (catalogue_tables p Hp) as (_ & _ & Hstock & _).
  unfold currentQty. destruct (List.find _ c) as [i|] eqn:Hf.
  - apply find_some in Hf as [Hin Hi]. apply bool_decide_eq_true in Hi.
    apply (Hw i); [rewrite list_elem_of_In; exact Hin | rewrite Hi; exact Hstock].
  - clear Hf Hstock. revert p Hp. apply (products_cases (fun p => 0 <= p_stock p)).
    unfold products. repeat (apply Forall_cons; split; [qc_eval|]).
    apply Forall_nil. trivial.
Qed.

(** ** The total *)

Lemma or_zero_Some (n : Qc) : or_zero (Some n) = n.
Proof. unfold or_zero. case_bool_decide; congruence. Qed.

(** The price table of the route holds the catalogue prices. *)
Lemma prices_catalogue (pid : Qc) : or_zero (record_get prices pid) = price_in products pid.
Proof.
  unfold price_in, prices, products, product.
  cbn [record_get List.find p_id p_price].
  repeat (case_bool_decide; [apply or_zero_Some|]). reflexivity.
Qed.

Lemma sum_prices_from (c : list CartItem) (a : Qc) :
  fold_left (fun total item =>
    total + or_zero (record_get prices (productId item)) * qty item) c a
  = a + spec_total products c.
Proof.
  revert a. induction c as [|i c IH]; intros a; cbn [fold_left spec_total].
  - rewrite Qcplus_0_r. reflexivity.
  - rewrite IH, prices_catalogue. rewrite Qcplus_assoc. reflexivity.
Qed.

Lemma itemCount_from (c : list CartItem) (a : Qc) :
  fold_left (fun acc i => acc + qty i) c a = a + spec_count c.
Proof.
  revert a. induction c as [|i c IH]; intros a; simpl.
  - rewrite Qcplus_0_r. reflexivity.
  - rewrite IH. rewrite Qcplus_assoc. reflexivity.
Qed.

Lemma find_snoc {A} (f : A -> bool) (l : list A) (x : A) :
  List.find f (l ++ [x]) =
  match List.find f l with
  | Some y => Some y
  | None => if f x then Some x else None
  end.
Proof.
  induction l as [|y l IH]; simpl; [reflexivity|].
  destruct (f y); [reflexivity | assumption].
Qed.

(** The map built from a catalogue with distinct ids finds the product that
    a search from the front finds. *)
Lemma productMap_lookup (ps : list Product) (pid : Qc) :
  NoDup (map p_id ps) ->
  or_zero (productMap ps !! pid) = price_in ps pid.
Proof.
  unfold productMap, price_in. induction ps as [|p ps IH] using rev_ind; intros Hnd.
  - reflexivity.
  - rewrite map_app in Hnd. apply NoDup_app in Hnd as (Hps & Hp & _).
    rewrite fold_left_app, find_snoc. simpl. rewrite lookup_insert.
    destruct (decide (p_id p = pid)) as [<-|Hne].
    + rewrite bool_decide_eq_true_2 by reflexivity. rewrite or_zero_Some.
      destruct (List.find _ ps) as [p'|] eqn:Hf; [|reflexivity].
      apply find_some in Hf as [Hin Heq]. apply bool_decide_eq_true in Heq.
      exfalso. apply (Hp (p_id p)); [|left].
      rewrite <- Heq. apply list_elem_of_fmap. exists p'. rewrite list_elem_of_In. auto.
    + rewrite (bool_decide_eq_false_2 _ Hne). rewrite IH by assumption.
      destruct (List.find _ ps); reflexivity.
Qed.

Lemma calculateCartTotal_sum (ps : list Product) (c : list CartItem) :
  NoDup (map p_id ps) -> calculateCartTotal c ps = spec_total ps c.
Proof.
  intros Hnd. unfold calculateCartTotal.
  rewrite <- (Qcplus_0_l (spec_total ps c)). generalize 0.
  induction c as [|i c IH]; intros a; cbn [fold_left spec_total].
  - rewrite Qcplus_0_r. reflexivity.
  - rewrite IH, productMap_lookup by assumption. rewrite Qcplus_assoc. reflexivity.
Qed.

Lemma products_ids_distinct : NoDup (map p_id products).
Proof. eapply bool_decide_eq_true_1. vm_compute. reflexivity. Qed.

Lemma mockProducts_ids_distinct : NoDup (map p_id mockProducts).
Proof. eapply bool_decide_eq_true_1. vm_compute. reflexivity. Qed.

(** C6: the total route does not answer when the import or the fetch that
    it awaits before it computes anything fails (the fetch goes to port 3000
    of the local host, whatever port the server listens on): it sends no
    total for any cart, and the cart and the data file stay as they are;
    the cart of the worked example, which totals 549997 for three pairs once
    the awaits have settled, gets no answer either. *)
Theorem total_needs_fetch :
  (forall st, total false st = (st, None)) /\
  snd (total false basket) = None /\
  snd (total true basket) = Some (Json_total (int 549997) (int 3)).
Proof. repeat split; reflexivity. Qed.

(** The worked examples of the total, once the awaits have settled: an empty
    or absent cart gives 0 and 0, the example cart gives 549997 for three
    pairs, also through the helper of the test suite, and an id outside the
    catalogue counts with price 0. *)
Example scenario_totals (uid : option string) (d : Disk) :
  snd (total true (mkState (mkSession uid None) d)) = Some (Json_total 0 0) /\
  snd (total true (mkState (mkSession uid (Some [])) d)) = Some (Json_total 0 0) /\
  snd (total true (mkState (mkSession uid (Some example_cart)) d)) =
    Some (Json_total (int 549997) (int 3)) /\
  snd (total true (mkState (mkSession uid (Some [mkItem (int 999) (int 5)])) d)) =
    Some (Json_total 0 (int 5)) /\
  calculateCartTotal example_cart mockProducts = int 549997.
Proof.
  repeat split; reflexivity.
Qed.

(** ** Saving and loading *)

Lemma get_hydrated (st : State) (c : list CartItem) :
  cart (session st) = Some c -> get st = (st, Json_cart c).
Proof.
  destruct st as [[uid crt] d]. simpl. intros ->. reflexivity.
Qed.

Lemma get_new_session (u : string) (d : Disk) :
  u <> ""%string ->
  get (new_session u d) =
  (mkState (mkSession (Some u) (Some (loadCartFromFile u d))) d,
   Json_cart (loadCartFromFile u d)).
Proof.
  intros Hu. unfold get, new_session. simpl.
  rewrite bool_decide_eq_false_2 by assumption. reflexivity.
Qed.

Lemma save_load (u : string) (c : list CartItem) (d : Disk) :
  u <> "__proto__"%string -> usable d = true ->
  loadCartFromFile u (saveCartToFile u c d) = c.
Proof.
  intros Hu Hd. rewrite load_entry.
  - rewrite save_entry by assumption. reflexivity.
  - rewrite save_read_fails. apply usable_read, Hd.
Qed.

Lemma mint_userId_own (now : Z) : mint_userId now <> "__proto__"%string.
Proof. unfold mint_userId. simpl. discriminate. Qed.

Lemma string_or_own (s : option string) (fallback : string) :
  s <> Some "__proto__"%string -> fallback <> "__proto__"%string ->
  string_or s fallback <> "__proto__"%string.
Proof.
  intros Hs Hf. unfold string_or. destruct s as [u|]; [|assumption].
  case_bool_decide; [assumption | congruence].
Qed.

(** C8, as stated, fails when the data file cannot be parsed, and when the
    write fails: the error is caught, nothing is stored, and loading
    answers with the empty cart.  It fails for the userId [__proto__] as
    well: the assignment sets the prototype of the parsed object, and the
    file that is written holds no entry for it. *)
Lemma roundtrip_lost :
  loadCartFromFile "u1" (saveCartToFile "u1" example_cart (mkDisk Unparsable true)) = [] /\
  loadCartFromFile "u1" (saveCartToFile "u1" example_cart (mkDisk Missing false)) = [] /\
  example_cart <> [] /\
  entry "__proto__" (saveCartToFile "__proto__" example_cart (mkDisk Missing true)) = None.
Proof. split; [reflexivity|]. split; [reflexivity|]. split; [discriminate | reflexivity]. Qed.

(** C8, amended: when the data file is absent or is read as a mapping, and
    the write succeeds, saving a cart under a userId other than [__proto__]
    and loading it by the same userId gives the cart back; a successful [add]
    followed by [get] in the same session answers with the cart the addition
    produced, and a new session with the same userId (again not [__proto__])
    is answered with that cart too. *)
Theorem cart_roundtrip (u : string) (c : list CartItem) (d : Disk) :
  usable d = true ->
  u <> "__proto__"%string ->
  loadCartFromFile u (saveCartToFile u c d) = c /\
  (forall now body st st' c',
     disk st = d ->
     userId (session st) <> Some "__proto__"%string ->
     add now body st = (st', Json_ok c') ->
     get st' = (st', Json_cart c') /\
     exists uid,
       userId (session st') = Some uid /\
       get (new_session uid (disk st')) =
       (mkState (mkSession (Some uid) (Some c')) (disk st'), Json_cart c')).
Proof.
  intros Hd Hu. split; [apply save_load; assumption|].
  intros now body st st' c' Hst Hown Hadd.
  apply add_ok_state in Hadd. subst st'. split; [apply get_hydrated; reflexivity|].
  eexists. split; [reflexivity|]. cbn [disk].
  rewrite get_new_session
    by (apply string_or_nonempty, mint_userId_nonempty).
  rewrite save_load; [reflexivity | | rewrite Hst; exact Hd].
  apply string_or_own; [exact Hown | apply mint_userId_own].
Qed.

Lemma cart_roundtrip_witness :
  loadCartFromFile "u1" (saveCartToFile "u1" example_cart shared) = example_cart /\
  (forall now body st st' c',
     disk st = shared ->
     userId (session st) <> Some "__proto__"%string ->
     add now body st = (st', Json_ok c') ->
     get st' = (st', Json_cart c') /\
     exists uid,
       userId (session st') = Some uid /\
       get (new_session uid (disk st')) =
       (mkState (mkSession (Some uid) (Some c')) (disk st'), Json_cart c')).
Proof.
  apply (cart_roundtrip "u1" example_cart shared).
  - reflexivity.
  - discriminate.
Defined.

(** The round trip through a session, on the scenario: the cart added by
    "u1" is what a later session of "u1" gets. *)
Example scenario_new_session :
  snd (get (new_session "u1" (disk (fst (add 0 (int_body 1 12) shopper))))) =
  Json_cart [mkItem (int 1) (int 12)].
Proof. reflexivity. Qed.

(** ** Searching the catalogue *)

(** Case analysis on the tests of [lower_unit]. *)
Ltac lower_cases :=
  repeat match goal with
  | |- context [(?a <=? ?b)%N] => destruct (N.leb_spec a b)
  | |- context [(?a =? ?b)%N] => destruct (N.eqb_spec a b)
  end; cbn [andb negb]; try lia.

Section Occurrences.
Implicit Types (s t : list N).

Lemma startsWith_spec s t : startsWith s t = true <-> exists post, s = t ++ post.
Proof.
  revert s. induction t as [|b t IH]; intros s; simpl.
  - split; [intros _; exists s; reflexivity | reflexivity].
  - destruct s as [|a s].
    + split; [discriminate | intros [post H]; discriminate].
    + rewrite andb_true_iff, N.eqb_eq, IH. split.
      * intros [-> [post ->]]. exists post. reflexivity.
      * intros [post [= -> ->]]. eauto.
Qed.

Lemma includes_spec s t : includes s t = true <-> exists pre post, s = pre ++ t ++ post.
Proof.
  induction s as [|a s IH]; simpl; rewrite orb_true_iff, startsWith_spec.
  - split.
    + intros [[post H]|H]; [|discriminate]. exists [], post. assumption.
    + intros (pre & post & H). left. destruct pre; [eauto | discriminate].
  - rewrite IH. split.
    + intros [[post H]|(pre & post & H)].
      * exists [], post. assumption.
      * exists (a :: pre), post. rewrite H. reflexivity.
    + intros (pre & post & H). destruct pre as [|a' pre].
      * left. eauto.
      * right. injection H as _ H. eauto.
Qed.

(** [lower_unit] sends a capital to its small letter and keeps a small
    letter. *)
Lemma lower_capital (capital small : N) :
  case_pair capital small -> lower_unit capital = small /\ lower_unit small = small.
Proof.
  intros H. destruct H; try (split; reflexivity); unfold lower_unit; split; lower_cases.
Qed.

(** Every unit is a capital, which [lower_unit] sends to its small letter,
    or is no capital, and kept. *)
Lemma lower_unit_cases (c : N) :
  case_pair c (lower_unit c) \/ (lower_unit c = c /\ forall small, ~ case_pair c small).
Proof.
  unfold lower_unit.
  destruct (N.leb_spec 65 c), (N.leb_spec c 90); cbn [andb];
    try (left; constructor; lia);
    (destruct (N.leb_spec 192 c), (N.leb_spec c 222), (N.eqb_spec c 215); cbn [andb negb];
     try (left; constructor; lia);
     (destruct (N.eqb_spec c 376) as [->|];
      [left; constructor|];
      destruct (N.eqb_spec c 7838) as [->|];
      [left; constructor|];
      destruct (N.eqb_spec c 8490) as [->|];
      [left; constructor|];
      destruct (N.eqb_spec c 8491) as [->|];
      [left; constructor|];
      right; split; [reflexivity|];
      intros small Hpair; inversion Hpair; subst; lia)).
Qed.

(** The letters that [toLowerCase] identifies are the letters that are the
    same up to case. *)
Lemma same_letter_lower (x y : N) : same_letter x y <-> lower_unit x = lower_unit y.
Proof.
  unfold same_letter. split.
  - intros [->|[H|[H|(small & Hx & Hy)]]].
    + reflexivity.
    + apply lower_capital in H as [H1 H2]. congruence.
    + apply lower_capital in H as [H1 H2]. congruence.
    + apply lower_capital in Hx as [Hx _]. apply lower_capital in Hy as [Hy _]. congruence.
  - intros E.
    destruct (lower_unit_cases x) as [Hx|[Hx _]], (lower_unit_cases y) as [Hy|[Hy _]].
    + right. right. right. exists (lower_unit x). split; [exact Hx | rewrite E; exact Hy].
    + right. left. rewrite E, Hy in Hx. exact Hx.
    + right. right. left. rewrite <- E, Hx in Hy. exact Hy.
    + left. congruence.
Qed.

Lemma same_letters_lower s t : same_letters s t <-> toLowerCase s = toLowerCase t.
Proof.
  unfold same_letters, toLowerCase. split.
  - induction 1 as [|x y s t Hxy _ IH]; simpl; [reflexivity|].
    apply same_letter_lower in Hxy. congruence.
  - revert t. induction s as [|a s IH]; intros [|b t]; simpl; try discriminate.
    + constructor.
    + intros [= Hab Hst]. constructor; [apply same_letter_lower; exact Hab | auto].
Qed.

(** Lower-casing both sides and looking for an occurrence is looking for an
    occurrence up to case. *)
Lemma includes_contains_ci s t :
  includes (toLowerCase s) (toLowerCase t) = true <-> contains_ci s t.
Proof.
  rewrite includes_spec. unfold contains_ci. split.
  - intros (pre & post & H). unfold toLowerCase in H.
    apply map_eq_app in H as (s1 & s23 & -> & <- & H).
    apply map_eq_app in H as (s2 & s3 & -> & H & <-).
    exists s1, s2, s3. split; [reflexivity|]. apply same_letters_lower. exact H.
  - intros (pre & mid & post & -> & H). apply same_letters_lower in H.
    exists (toLowerCase pre), (toLowerCase post).
    unfold toLowerCase in *. rewrite !map_app, H. reflexivity.
Qed.
End Occurrences.

(** C9: for every term, the search returns the catalogue products, in
    catalogue order, whose name or description contains the term up to the
    case of letters ([contains_ci], stated with the capital and small
    letters of the alphabets of the catalogue and not with the case mapping
    of the code); the empty term returns the whole catalogue; and "runner"
    returns the product named "Runner Azul" alone, in any case of the
    term. *)
Theorem search_case_insensitive :
  (forall query p,
     p ∈ search query <->
     p ∈ products /\ (contains_ci (p_name p) query \/ contains_ci (p_description p) query)) /\
  (forall query, sublist (search query) products) /\
  search [] = products /\
  search (js "runner") = [runner] /\
  search (js "RUNNER") = [runner] /\
  p_name runner = js "Runner Azul".
Proof.
  split; [|split; [|split; [|split; [|split]]]]; try reflexivity.
  - intros query p. unfold search, search_in.
    rewrite !list_elem_of_In, filter_In, orb_true_iff, !includes_contains_ci.
    reflexivity.
  - intros query. unfold search, search_in.
    induction products as [|p ps IH]; simpl; [constructor|].
    destruct (_ || _); [apply sublist_skip | apply sublist_cons]; assumption.
Qed.

(** * Further properties of the cart routes *)

Lemma string_or_present (u fallback : string) :
  u <> ""%string -> string_or (Some u) fallback = u.
Proof. intros Hu. unfold string_or. rewrite bool_decide_eq_false_2 by exact Hu. reflexivity. Qed.

Lemma save_if_user_present (u : string) (c : list CartItem) (d : Disk) :
  u <> ""%string -> save_if_user (Some u) c d = saveCartToFile u c d.
Proof. intros Hu. unfold save_if_user. rewrite bool_decide_eq_false_2 by exact Hu. reflexivity. Qed.

(** What an accepted [add] tells about the request and the new state. *)
Lemma add_ok_inv (now : Z) (body : Body) (st st' : State) (c' : list CartItem) :
  add now body st = (st', Json_ok c') ->
  exists pid q,
    body_productId body = VNum pid /\ body_qty body = VNum q /\
    0 < q /\ int 1 <= pid /\ pid <= int 9 /\
    gt_maybe (currentQty pid (items st) + q) (record_get stockMap pid) = false /\
    c' = upsert pid q (items st) /\
    st' = mkState
            (mkSession (Some (string_or (userId (session st)) (mint_userId now))) (Some c'))
            (saveCartToFile (string_or (userId (session st)) (mint_userId now)) c' (disk st)).
Proof.
  unfold add. destruct (negb _ || _); [discriminate|].
  destruct (body_productId body) as [| | |pid| | |]; try discriminate.
  destruct (body_qty body) as [| | |q| | |]; try discriminate.
  destruct (bool_decide (q <= 0)) eqn:Hq; [discriminate|].
  destruct (bool_decide (pid < int 1)) eqn:Hlo; [discriminate|].
  destruct (bool_decide (int 9 < pid)) eqn:Hhi; [discriminate|].
  cbn [orb]. fold (items st). fold (currentQty pid (items st)).
  destruct (gt_maybe _ _) eqn:Hgt; [discriminate|].
  intros [= <- <-]. exists pid, q.
  apply bool_decide_eq_false in Hq, Hlo, Hhi.
  repeat split; try reflexivity.
  - apply Qcnot_le_lt, Hq.
  - apply Qcnot_lt_le, Hlo.
  - apply Qcnot_lt_le, Hhi.
  - exact Hgt.
Qed.

(** A rejected [add] leaves the state as it was, or, when it is the stock
    rule that fails, only settles the session's userId and cart field. *)
Lemma add_rejected_inv (now : Z) (body : Body) (st st' : State) (e : Error) :
  add now body st = (st', Bad_request e) ->
  st' = st \/
  st' = mkState
          (mkSession (Some (string_or (userId (session st)) (mint_userId now)))
                     (Some (items st)))
          (disk st).
Proof.
  unfold add. destruct (negb _ || _); [intros [= <- _]; auto|].
  destruct (body_productId body) as [| | |pid| | |]; try (intros [= <- _]; auto).
  destruct (body_qty body) as [| | |q| | |]; try (intros [= <- _]; auto).
  destruct (bool_decide (q <= 0)); [intros [= <- _]; auto|].
  destruct (bool_decide _ || bool_decide _); [intros [= <- _]; auto|].
  destruct (gt_maybe _ _); [|discriminate].
  intros [= <- _]. auto.
Qed.

Lemma remove_rejected_inv (body : Body) (st st' : State) (e : Error) :
  remove body st = (st', Bad_request e) -> st' = st.
Proof.
  unfold remove. destruct (negb _); [intros [= <- _]; reflexivity|].
  destruct (body_productId body); intros [= <- _]; reflexivity.
Qed.

Lemma handle_rejected_inv (r : Request) (st st' : State) (e : Error) :
  handle r st = (st', Bad_request e) ->
  items st' = items st /\ disk st' = disk st /\
  forall u, userId (session st) = Some u -> u <> ""%string ->
            userId (session st') = Some u.
Proof.
  destruct r as [now body|body|]; cbn [handle].
  - intros H. apply add_rejected_inv in H as [->| ->]; [auto|].
    cbn [session disk userId]. repeat split. intros u Hu Hne.
    rewrite Hu, string_or_present by exact Hne. reflexivity.
  - intros H. apply remove_rejected_inv in H. subst. auto.
  - discriminate.
Qed.

(** The cart routes answer a request to add, remove or clear with the cart
    or with a 400. *)
Lemma handle_response (r : Request) (st : State) :
  (exists c, snd (handle r st) = Json_ok c) \/ (exists e, snd (handle r st) = Bad_request e).
Proof.
  destruct r as [now body|body|]; cbn [handle].
  - unfold add.
    repeat match goal with
           | |- context [if ?b then _ else _] => destruct b
           | |- context [match ?v with VUndefined => _ | _ => _ end] => destruct v
           end; cbn [snd]; eauto.
  - unfold remove.
    repeat match goal with
           | |- context [if ?b then _ else _] => destruct b
           | |- context [match ?v with VUndefined => _ | _ => _ end] => destruct v
           end; cbn [snd]; eauto.
  - left. eexists. reflexivity.
Qed.

(** X1: a request that is answered with a 400 leaves the items of the cart
    and the data file as they were, whatever the request was. *)
Theorem rejected_changes_nothing (r : Request) (st st' : State) (e : Error) :
  handle r st = (st', Bad_request e) ->
  items st' = items st /\ disk st' = disk st.
Proof.
  intros H. apply handle_rejected_inv in H as (Hi & Hd & _). auto.
Qed.

Lemma rejected_changes_nothing_witness :
  items (fst (handle (Add 7 (int_body 3 9)) stocked)) = items stocked /\
  disk (fst (handle (Add 7 (int_body 3 9)) stocked)) = disk stocked.
Proof.
  apply (rejected_changes_nothing (Add 7 (int_body 3 9)) stocked _ (StockShort (Some (int 8)))).
  reflexivity.
Defined.

Lemma save_other_entry (u u' : string) (c : list CartItem) (d : Disk) :
  read_fails d = false -> u' <> u -> entry u' (saveCartToFile u c d) = entry u' d.
Proof. intros Hd Hne. rewrite save_others, Hd by exact Hne. reflexivity. Qed.

Lemma assign_key_twice (u : string) (c : list CartItem)
    (allCarts : gmap string (list CartItem)) :
  assign_key u c (assign_key u c allCarts) = assign_key u c allCarts.
Proof.
  unfold assign_key.
  destruct (bool_decide (u = "__proto__"%string) &&
            negb (bool_decide (is_Some (allCarts !! u)))) eqn:E.
  - rewrite E. reflexivity.
  - rewrite lookup_insert_eq, (bool_decide_eq_true_2 (is_Some (Some c))) by eauto.
    rewrite andb_false_r. apply insert_insert_eq.
Qed.

Lemma save_twice (u : string) (c : list CartItem) (d : Disk) :
  saveCartToFile u c (saveCartToFile u c d) = saveCartToFile u c d.
Proof.
  unfold saveCartToFile.
  destruct d as [[| |m|m] [|]]; cbn; try reflexivity;
    rewrite assign_key_twice; reflexivity.
Qed.

(** The state after an accepted request of a session that has a userId. *)
Lemma handle_ok_state (r : Request) (st st' : State) (c : list CartItem) (u : string) :
  userId (session st) = Some u -> u <> ""%string ->
  handle r st = (st', Json_ok c) ->
  st' = mkState (mkSession (Some u) (Some c)) (saveCartToFile u c (disk st)).
Proof.
  intros Hu Hne. destruct r as [now body|body|]; cbn [handle].
  - intros H. apply add_ok_state in H. rewrite Hu, string_or_present in H by exact Hne.
    exact H.
  - unfold remove. destruct (negb _); [discriminate|].
    destruct (body_productId body); try discriminate.
    rewrite Hu, save_if_user_present by exact Hne. intros [= <- <-]. reflexivity.
  - unfold clear. rewrite Hu, save_if_user_present by exact Hne.
    intros [= <- <-]. reflexivity.
Qed.

(** X2: when the data file is absent or is read as a mapping and writes
    succeed, every accepted add, remove or clear of a session whose userId is
    not [__proto__] leaves the cart it answers with both in the session and
    under that userId in the file; the userId stays and the file stays
    usable. *)
Theorem accepted_is_stored (r : Request) (st st' : State) (c : list CartItem) (u : string) :
  userId (session st) = Some u -> u <> ""%string -> u <> "__proto__"%string ->
  usable (disk st) = true ->
  handle r st = (st', Json_ok c) ->
  session st' = mkSession (Some u) (Some c) /\
  entry u (disk st') = Some c /\
  loadCartFromFile u (disk st') = c /\
  usable (disk st') = true.
Proof.
  intros Hu Hne Hown Hd H. apply (handle_ok_state r st st' c u Hu Hne) in H. subst st'.
  cbn [session disk]. split; [reflexivity|]. split; [apply save_entry; assumption|].
  split; [apply save_load; assumption|]. apply save_usable; assumption.
Qed.

Lemma accepted_is_stored_witness :
  session (fst (handle (Add 3 (int_body 2 4)) returning)) =
    mkSession (Some "u1"%string) (Some [mkItem (int 1) (int 12); mkItem (int 2) (int 4)]) /\
  entry "u1" (disk (fst (handle (Add 3 (int_body 2 4)) returning))) =
    Some [mkItem (int 1) (int 12); mkItem (int 2) (int 4)] /\
  loadCartFromFile "u1" (disk (fst (handle (Add 3 (int_body 2 4)) returning))) =
    [mkItem (int 1) (int 12); mkItem (int 2) (int 4)] /\
  usable (disk (fst (handle (Add 3 (int_body 2 4)) returning))) = true.
Proof.
  apply (accepted_is_stored (Add 3 (int_body 2 4)) returning _ _ "u1").
  - reflexivity.
  - discriminate.
  - discriminate.
  - reflexivity.
  - reflexivity.
Defined.

Lemma handle_keeps_user (r : Request) (st : State) (u : string) :
  userId (session st) = Some u -> u <> ""%string ->
  userId (session (fst (handle r st))) = Some u.
Proof.
  intros Hu Hne. destruct (handle r st) as [st' resp] eqn:H.
  destruct (handle_response r st) as [[c Hc]|[e He]]; rewrite H in *; cbn [fst snd] in *; subst.
  - apply (handle_ok_state r st st' c u Hu Hne) in H. subst. reflexivity.
  - apply handle_rejected_inv in H as (_ & _ & Hk). auto.
Qed.

Lemma handle_other_entry (r : Request) (st : State) (u u' : string) :
  userId (session st) = Some u -> u <> ""%string -> u' <> u ->
  read_fails (disk st) = false ->
  entry u' (disk (fst (handle r st))) = entry u' (disk st) /\
  read_fails (disk (fst (handle r st))) = false.
Proof.
  intros Hu Hne Hu' Hd. destruct (handle r st) as [st' resp] eqn:H.
  destruct (handle_response r st) as [[c Hc]|[e He]]; rewrite H in *; cbn [fst snd] in *; subst.
  - apply (handle_ok_state r st st' c u Hu Hne) in H. subst. cbn [disk].
    split; [apply save_other_entry; assumption | rewrite save_read_fails; exact Hd].
  - apply handle_rejected_inv in H as (_ & -> & _). auto.
Qed.

(** X3: along any sequence of requests of a session with a userId, the
    userId stays the same and, when the reads of an existing data file do
    not fail, the entries of all other userIds in the file stay as they
    were. *)
Theorem session_writes_own_entry (rs : list Request) (st : State) (u u' : string) :
  userId (session st) = Some u -> u <> ""%string -> u' <> u ->
  read_fails (disk st) = false ->
  userId (session (run rs st)) = Some u /\
  entry u' (disk (run rs st)) = entry u' (disk st).
Proof.
  intros Hu Hne Hu'. revert st Hu.
  induction rs as [|r rs IH]; intros st Hu Hd; [auto|].
  cbn [run fold_left]. fold (run rs (fst (handle r st))).
  destruct (handle_other_entry r st u u' Hu Hne Hu' Hd) as [Hother Hd'].
  destruct (IH (fst (handle r st))) as [Hk He]; [|exact Hd'|].
  { apply handle_keeps_user; assumption. }
  split; [exact Hk|]. rewrite He. exact Hother.
Qed.

Lemma session_writes_own_entry_witness :
  entry "u2" (disk returning) = Some example_cart /\
  entry "u1" (disk (run [Add 0 (int_body 4 2); Clear; Add 1 (int_body 5 1)] returning)) =
    Some [mkItem (int 5) (int 1)] /\
  userId (session (run [Add 0 (int_body 4 2); Clear; Add 1 (int_body 5 1)] returning)) =
    Some "u1"%string /\
  entry "u2" (disk (run [Add 0 (int_body 4 2); Clear; Add 1 (int_body 5 1)] returning)) =
    entry "u2" (disk returning).
Proof.
  split; [reflexivity|]. split; [reflexivity|].
  apply (session_writes_own_entry _ returning "u1" "u2").
  - reflexivity.
  - discriminate.
  - discriminate.
  - reflexivity.
Defined.


(** X5: [add] does not read the data file.  In a session that has not read
    its cart yet (its userId is not [__proto__], and the file is absent or
    read as a mapping, and written), an accepted [add] starts from the empty
    cart, and what the file held for the userId is replaced by the one new
    item. *)
Theorem add_before_get_replaces (now : Z) (u : string) (d : Disk) (p : Product) (q : Z) :
  u <> ""%string -> u <> "__proto__"%string ->
  usable d = true ->
  p ∈ products -> (0 < q)%Z -> int q <= p_stock p ->
  exists st',
    add now (mkBody (VNum (p_id p)) (VNum (int q))) (new_session u d) =
      (st', Json_ok [mkItem (p_id p) (int q)]) /\
    entry u (disk st') = Some [mkItem (p_id p) (int q)] /\
    snd (get (new_session u (disk st'))) = Json_cart [mkItem (p_id p) (int q)].
Proof.
  intros Hu Hown Hd Hin Hq Hfit.
  destruct (catalogue_tables p Hin) as (Hlo & Hhi & Hstock & _).
  assert (Hq' : 0 < int q) by (rewrite <- int_0; apply int_lt; assumption).
  assert (Hfit' : currentQty (p_id p) (items (new_session u d)) + int q <= p_stock p).
  { unfold currentQty. simpl. rewrite Qcplus_0_l. exact Hfit. }
  pose proof (add_accepted now (new_session u d) _ _ _ Hq' Hlo Hhi Hstock Hfit') as H.
  cbn [new_session session userId disk items cart cart_or_empty] in H.
  rewrite string_or_present in H by exact Hu. rewrite upsert_nil in H.
  eexists. split; [exact H|]. cbn [disk].
  split; [apply save_entry; assumption|].
  rewrite get_new_session by exact Hu. cbn [snd].
  rewrite save_load by assumption. reflexivity.
Qed.

Lemma add_before_get_replaces_witness :
  exists st',
    add 5 (mkBody (VNum (p_id runner)) (VNum (int 1))) (new_session "u1" (disk stocked)) =
      (st', Json_ok [mkItem (p_id runner) (int 1)]) /\
    entry "u1" (disk st') = Some [mkItem (p_id runner) (int 1)] /\
    snd (get (new_session "u1" (disk st'))) = Json_cart [mkItem (p_id runner) (int 1)].
Proof.
  apply (add_before_get_replaces 5 "u1" (disk stocked) runner 1).
  - discriminate.
  - discriminate.
  - reflexivity.
  - apply list_elem_of_here.
  - lia.
  - qc_eval.
Defined.

Lemma filter_others_twice (pid : Qc) (c : list CartItem) :
  List.filter (fun i => negb (bool_decide (productId i = pid)))
    (List.filter (fun i => negb (bool_decide (productId i = pid))) c) =
  List.filter (fun i => negb (bool_decide (productId i = pid))) c.
Proof.
  induction c as [|i c IH]; [reflexivity|]. simpl.
  destruct (negb (bool_decide (productId i = pid))) eqn:Hi; [|exact IH].
  simpl. rewrite Hi, IH. reflexivity.
Qed.

Lemma save_if_user_twice (uid : option string) (c : list CartItem) (d : Disk) :
  save_if_user uid c (save_if_user uid c d) = save_if_user uid c d.
Proof.
  unfold save_if_user. destruct uid as [u|]; [|reflexivity].
  destruct (bool_decide (u = ""%string)); [reflexivity | apply save_twice].
Qed.

(** X6: [remove] and [clear] may be repeated: sent a second time, the same
    request gives the same answer and leaves the state, the data file
    included, as the first one left it. *)
Theorem remove_clear_idempotent (body : Body) (st : State) :
  remove body (fst (remove body st)) = remove body st /\
  clear (fst (clear st)) = clear st.
Proof.
  split.
  - unfold remove. destruct (negb (truthy (body_productId body))) eqn:Ht.
    { reflexivity. }
    destruct (body_productId body) as [| | |pid| | |] eqn:Hb; cbn [fst];
      rewrite ?Ht; try reflexivity.
    cbn [session cart userId disk cart_or_empty].
    rewrite filter_others_twice, save_if_user_twice. reflexivity.
  - unfold clear. cbn [fst session userId disk]. rewrite save_if_user_twice. reflexivity.
Qed.

(** ** What the carts built by the routes look like *)





(** ** How the requests move the total *)

Lemma sum_prices_acc (c : list CartItem) (a : Qc) :
  fold_left (fun total item =>
    total + or_zero (record_get prices (productId item)) * qty item) c a
  = a + sum_prices c.
Proof.
  unfold sum_prices. rewrite !sum_prices_from. ring.
Qed.

Lemma itemCount_acc (c : list CartItem) (a : Qc) :
  fold_left (fun acc i => acc + qty i) c a = a + itemCount c.
Proof.
  unfold itemCount. rewrite !itemCount_from. ring.
Qed.

Lemma sum_prices_cons (i : CartItem) (c : list CartItem) :
  sum_prices (i :: c) =
  or_zero (record_get prices (productId i)) * qty i + sum_prices c.
Proof.
  unfold sum_prices at 1. cbn [fold_left]. rewrite sum_prices_acc. ring.
Qed.

Lemma itemCount_cons (i : CartItem) (c : list CartItem) :
  itemCount (i :: c) = qty i + itemCount c.
Proof.
  unfold itemCount at 1. cbn [fold_left]. rewrite itemCount_acc. ring.
Qed.

Lemma totals_upsert (pid q : Qc) (c : list CartItem) :
  sum_prices (upsert pid q c) =
    sum_prices c + or_zero (record_get prices pid) * q /\
  itemCount (upsert pid q c) = itemCount c + q.
Proof.
  induction c as [|i c [IHs IHn]].
  - rewrite upsert_nil, sum_prices_cons, itemCount_cons. cbn [productId qty].
    split; ring.
  - rewrite upsert_cons. destruct (decide (productId i = pid)) as [Hi|Hi].
    + rewrite (bool_decide_eq_true_2 _ Hi).
      rewrite !sum_prices_cons, !itemCount_cons. unfold add_qty. cbn [productId qty].
      rewrite Hi. split; ring.
    + rewrite (bool_decide_eq_false_2 _ Hi).
      rewrite !sum_prices_cons, !itemCount_cons, IHs, IHn. split; ring.
Qed.

Lemma totals_without (pid : Qc) (c : list CartItem) :
  unique_items c ->
  sum_prices c =
    sum_prices (List.filter (fun i => negb (bool_decide (productId i = pid))) c) +
    or_zero (record_get prices pid) * currentQty pid c /\
  itemCount c =
    itemCount (List.filter (fun i => negb (bool_decide (productId i = pid))) c) +
    currentQty pid c.
Proof.
  unfold unique_items, currentQty. induction c as [|i c IH]; intros Hu.
  - cbn. split; ring.
  - cbn [map] in Hu. apply NoDup_cons in Hu as [Hi Hu].
    cbn [List.filter List.find]. destruct (decide (productId i = pid)) as [Hp|Hp].
    + rewrite (bool_decide_eq_true_2 _ Hp). cbn [negb].
      rewrite filter_others_id.
      * rewrite sum_prices_cons, itemCount_cons, Hp. split; ring.
      * intros j Hj Hjp. apply Hi. rewrite Hp, <- Hjp.
        apply list_elem_of_fmap. exists j. auto.
    + rewrite (bool_decide_eq_false_2 _ Hp). cbn [negb].
      destruct (IH Hu) as [IHs IHn].
      rewrite !sum_prices_cons, !itemCount_cons, IHs, IHn at 1. split; ring.
Qed.

(** X8: on carts of whole quantities whose sums stay within 2^53, before
    and after, an accepted [add] of an integer quantity q raises the total of
    the cart by the price of the product times q and the item count by q. *)
Theorem add_raises_total (now : Z) (pid : Qc) (q : Z) (st st' : State)
    (c' : list CartItem) (t n : Qc) :
  exact_sums (items st) = true ->
  exact_sums c' = true ->
  add now (mkBody (VNum pid) (VNum (int q))) st = (st', Json_ok c') ->
  snd (total true st) = Some (Json_total t n) ->
  snd (total true st') =
    Some (Json_total (t + price_in products pid * int q) (n + int q)).
Proof.
  intros _ _ Hadd Ht.
  apply add_ok_inv in Hadd as (pid' & q' & [= <-] & [= <-] & _ & _ & _ & _ & -> & ->).
  unfold total in *. cbn [snd session cart cart_or_empty] in *.
  fold (items st) in Ht. injection Ht as <- <-.
  destruct (totals_upsert pid (int q) (items st)) as [-> ->].
  rewrite prices_catalogue. reflexivity.
Qed.

Lemma add_raises_total_witness :
  snd (total true (fst (add 0 (int_body 2 3) stocked))) =
    Some (Json_total (int 2399988 + price_in products (int 2) * int 3) (int 12 + int 3)).
Proof.
  apply (add_raises_total 0 (int 2) 3 stocked _
           [mkItem (int 1) (int 12); mkItem (int 2) (int 3)]).
  - vm_compute. reflexivity.
  - vm_compute. reflexivity.
  - reflexivity.
  - reflexivity.
Defined.

(** X9: with at most one item per product in a cart of whole quantities
    whose sums stay within 2^53, an accepted [remove] lowers the total by the
    price of the product times the quantity the cart held of it, and the
    item count by that quantity. *)
Theorem remove_lowers_total (pid : Qc) (other : value) (st st' : State)
    (c' : list CartItem) (t n : Qc) :
  unique_items (items st) ->
  exact_sums (items st) = true ->
  remove (mkBody (VNum pid) other) st = (st', Json_ok c') ->
  snd (total true st) = Some (Json_total t n) ->
  snd (total true st') =
    Some (Json_total (t - price_in products pid * currentQty pid (items st))
                     (n - currentQty pid (items st))).
Proof.
  intros Hu _ Hrem Ht. unfold remove in Hrem. cbn [body_productId] in Hrem.
  destruct (negb _); [discriminate|]. injection Hrem as <- <-.
  unfold total in *. cbn [snd session cart cart_or_empty] in *.
  fold (items st) in *. injection Ht as <- <-.
  destruct (totals_without pid (items st) Hu) as [Hs Hn].
  rewrite Hs, Hn at 1. rewrite prices_catalogue. f_equal. f_equal; ring.
Qed.

Lemma remove_lowers_total_witness :
  snd (total true (fst (remove (int_body 1 0) basket))) =
    Some (Json_total (int 549997 - price_in products (int 1) * currentQty (int 1) (items basket))
                     (int 3 - currentQty (int 1) (items basket))).
Proof.
  apply (remove_lowers_total (int 1) (VNum (int 0)) basket _ [mkItem (int 2) (int 1)]).
  - eapply bool_decide_eq_true_1. vm_compute. reflexivity.
  - vm_compute. reflexivity.
  - reflexivity.
  - reflexivity.
Defined.

(** X29: once its two awaits have settled, the total route answers, for a
    cart of whole quantities whose sums stay within 2^53, with the sum over
    the items of catalogue price times quantity (0 for an id outside the
    catalogue) and with the sum of the quantities, and leaves the state as it
    is; the helper of the test suite computes the same sum from a catalogue,
    the one of the routes or the one of the tests. *)
Theorem total_is_sum (st : State) :
  exact_sums (items st) = true ->
  total true st =
    (st, Some (Json_total (spec_total products (items st)) (spec_count (items st)))) /\
  calculateCartTotal (items st) products = spec_total products (items st) /\
  calculateCartTotal (items st) mockProducts = spec_total mockProducts (items st).
Proof.
  intros _. split; [|split].
  - unfold total, sum_prices, itemCount. fold (items st).
    rewrite sum_prices_from, itemCount_from, !Qcplus_0_l. reflexivity.
  - apply calculateCartTotal_sum, products_ids_distinct.
  - apply calculateCartTotal_sum, mockProducts_ids_distinct.
Qed.

Lemma total_is_sum_witness :
  spec_total products (items basket) = int 549997 /\
  spec_count (items basket) = int 3 /\
  total true basket =
    (basket, Some (Json_total (spec_total products (items basket)) (spec_count (items basket)))) /\
  calculateCartTotal (items basket) products = spec_total products (items basket) /\
  calculateCartTotal (items basket) mockProducts = spec_total mockProducts (items basket).
Proof.
  split; [reflexivity|]. split; [reflexivity|].
  apply (total_is_sum basket). vm_compute. reflexivity.
Defined.

(** * Properties of the catalogue routes *)

Lemma find_product (n : Qc) (p : Product) :
  List.find (fun p => bool_decide (p_id p = n)) products = Some p <->
  p ∈ products /\ p_id p = n.
Proof.
  split.
  - intros [Hin Hp]%find_some. apply bool_decide_eq_true in Hp.
    rewrite list_elem_of_In. auto.
  - intros [Hin <-]. revert p Hin.
    apply (products_cases
             (fun p => List.find (fun p' => bool_decide (p_id p' = p_id p)) products = Some p)).
    unfold products. repeat (apply Forall_cons; split; [reflexivity|]).
    apply Forall_nil. trivial.
Qed.

Lemma find_product_none (n : Qc) :
  List.find (fun p => bool_decide (p_id p = n)) products = None <->
  forall p, p ∈ products -> p_id p <> n.
Proof.
  split.
  - intros Hf p Hp Hn.
    assert (H : List.find (fun p => bool_decide (p_id p = n)) products = Some p)
      by (apply find_product; auto).
    congruence.
  - intros Hno. destruct (List.find _ products) as [p|] eqn:Hf; [|reflexivity].
    apply find_product in Hf as [Hin Hp]. exfalso. exact (Hno p Hin Hp).
Qed.

Lemma catalogue_id_positive (p : Product) : p ∈ products -> 0 < p_id p.
Proof.
  intros Hp. destruct (catalogue_tables p Hp) as (Hlo & _).
  apply Qclt_le_trans with (int 1); [reflexivity | exact Hlo].
Qed.

(** X10: the product route answers with a product exactly when the number
    is the id of that catalogue product; it answers 400 exactly for
    not-a-number and for numbers that are not positive; every other number,
    the positive infinity included, gives 404. *)
Theorem by_id_answers (id : jsnum) :
  (forall p, by_id id = Json_product p <-> p ∈ products /\ id = Fin (p_id p)) /\
  (by_id id = Invalid_id <->
   match id with
   | NaN | NegInf => True
   | PosInf => False
   | Fin n => n <= 0
   end) /\
  (by_id id = Not_found <->
   (id = PosInf \/ exists n, id = Fin n /\ 0 < n) /\
   forall p, p ∈ products -> id <> Fin (p_id p)).
Proof.
  destruct id as [| | |n].
  - cbn. split; [|split].
    + intros p. split; [discriminate | intros [_ H]; discriminate].
    + tauto.
    + split; [discriminate | intros [[H|(n & H & _)] _]; discriminate].
  - cbn. split; [|split].
    + intros p. split; [discriminate | intros [_ H]; discriminate].
    + split; [discriminate | contradiction].
    + split; [|reflexivity]. intros _. split; [left; reflexivity | intros p _; discriminate].
  - cbn. split; [|split].
    + intros p. split; [discriminate | intros [_ H]; discriminate].
    + tauto.
    + split; [discriminate | intros [[H|(n & H & _)] _]; discriminate].
  - unfold by_id. cbn [orb js_le]. destruct (decide (n <= 0)) as [Hn|Hn].
    + rewrite (bool_decide_eq_true_2 _ Hn). split; [|split].
      * intros p. split; [discriminate|]. intros [Hp [= ->]]. exfalso.
        revert Hn. apply Qclt_not_le, catalogue_id_positive, Hp.
      * tauto.
      * split; [discriminate|]. intros [[H|(m & [= <-] & Hm)] _]; [discriminate|].
        exfalso. revert Hn. apply Qclt_not_le, Hm.
    + rewrite (bool_decide_eq_false_2 _ Hn). apply Qcnot_le_lt in Hn.
      destruct (List.find _ products) as [p'|] eqn:Hf.
      * apply find_product in Hf as [Hin <-]. split; [|split].
        -- intros p. split.
           ++ intros [= <-]. auto.
           ++ intros [Hp [= Heq]].
              assert (H1 : List.find (fun q => bool_decide (p_id q = p_id p')) products = Some p)
                by (apply find_product; auto).
              assert (H2 : List.find (fun q => bool_decide (p_id q = p_id p')) products = Some p')
                by (apply find_product; auto).
              congruence.
        -- split; [discriminate|]. intros Hle. exfalso. revert Hle. apply Qclt_not_le, Hn.
        -- split; [discriminate|]. intros [_ Hno]. exfalso. exact (Hno p' Hin eq_refl).
      * pose proof (proj1 (find_product_none n) Hf) as Hno. split; [|split].
        -- intros p. split; [discriminate|]. intros [Hp [= ->]]. exfalso.
           exact (Hno p Hp eq_refl).
        -- split; [discriminate|]. intros Hle. exfalso. revert Hle. apply Qclt_not_le, Hn.
        -- split; [|reflexivity]. intros _. split; [right; eauto|].
           intros p Hp [= ->]. exact (Hno p Hp eq_refl).
Qed.

Lemma num_or_twice (a fallback : jsnum) :
  num_or fallback fallback = fallback ->
  num_or (num_or a fallback) fallback = num_or a fallback.
Proof.
  intros Hf. destruct a as [| | |n]; cbn; try assumption; try reflexivity.
  destruct (decide (n = 0)) as [Hn|Hn].
  - rewrite (bool_decide_eq_true_2 _ Hn). exact Hf.
  - rewrite (bool_decide_eq_false_2 _ Hn). cbn. rewrite (bool_decide_eq_false_2 _ Hn).
    reflexivity.
Qed.

Lemma filter_price_in_sublist (ps : list Product) (qmin qmax : jsnum) :
  sublist (filter_price_in ps qmin qmax) ps.
Proof.
  unfold filter_price_in. induction ps as [|p ps IH]; simpl; [constructor|].
  destruct (_ && _); [apply sublist_skip | apply sublist_cons]; assumption.
Qed.

(** X11: the price filter.  For finite bounds with a non-zero upper one it
    returns, in catalogue order, exactly the products priced from the lower
    to the upper bound, both included.  An upper bound of 0 is read as no
    upper bound, like a missing or unreadable one, and no readable bounds at
    all give the whole catalogue. *)
Theorem filter_price_bounds :
  (forall (lo hi : Qc) p, hi <> 0 ->
     (p ∈ filter_price_in products (Fin lo) (Fin hi) <->
      p ∈ products /\ lo <= p_price p /\ p_price p <= hi)) /\
  (forall qmin qmax, sublist (filter_price_in products qmin qmax) products) /\
  (forall qmin,
     filter_price qmin (Fin 0) = filter_price qmin PosInf /\
     filter_price qmin NaN = filter_price qmin PosInf) /\
  (forall (lo : Qc) p,
     p ∈ filter_price_in products (Fin lo) (Fin 0) <-> p ∈ products /\ lo <= p_price p) /\
  filter_price NaN NaN = list_products.
Proof.
  split; [|split; [|split; [|split]]].
  - intros lo hi p Hhi. unfold filter_price_in.
    rewrite list_elem_of_In, filter_In, <- list_elem_of_In, andb_true_iff.
    cbn [num_or]. rewrite (bool_decide_eq_false_2 _ Hhi).
    destruct (decide (lo = 0)) as [->|Hlo].
    + rewrite bool_decide_eq_true_2 by reflexivity. cbn [js_le].
      rewrite !bool_decide_eq_true. reflexivity.
    + rewrite (bool_decide_eq_false_2 _ Hlo). cbn [js_le].
      rewrite !bool_decide_eq_true. reflexivity.
  - intros qmin qmax. apply filter_price_in_sublist.
  - intros qmin. split; reflexivity.
  - intros lo p. unfold filter_price_in.
    rewrite list_elem_of_In, filter_In, <- list_elem_of_In, andb_true_iff.
    cbn [num_or]. rewrite (bool_decide_eq_true_2 (0 = 0)) by reflexivity.
    destruct (decide (lo = 0)) as [->|Hlo].
    + rewrite bool_decide_eq_true_2 by reflexivity. cbn [js_le].
      rewrite bool_decide_eq_true. tauto.
    + rewrite (bool_decide_eq_false_2 _ Hlo). cbn [js_le].
      rewrite bool_decide_eq_true. tauto.
  - reflexivity.
Qed.

(** X12: the helper [filterByPriceRange] of the test suite selects the same
    products as the route for finite bounds whose upper one is not 0; with
    an upper bound of 0 the helper selects nothing priced above 0 while the
    route applies no upper bound. *)
Theorem filterByPriceRange_agrees (ps : list Product) (lo hi : Qc) :
  (hi <> 0 -> filterByPriceRange ps (Fin lo) (Fin hi) = filter_price_in ps (Fin lo) (Fin hi)) /\
  (forall p, p ∈ filterByPriceRange ps (Fin lo) (Fin 0) -> p_price p <= 0) /\
  filter_price_in ps (Fin lo) (Fin 0) = filterByPriceRange ps (Fin lo) PosInf.
Proof.
  assert (Hlo : num_or (Fin lo) (Fin 0) = Fin lo).
  { cbn. case_bool_decide as H; [rewrite H|]; reflexivity. }
  split; [|split].
  - intros Hhi. unfold filterByPriceRange, filter_price_in. rewrite Hlo.
    cbn [num_or]. rewrite (bool_decide_eq_false_2 _ Hhi). reflexivity.
  - intros p. unfold filterByPriceRange.
    rewrite list_elem_of_In, filter_In, andb_true_iff. cbn [js_le].
    rewrite !bool_decide_eq_true. tauto.
  - unfold filterByPriceRange, filter_price_in. rewrite Hlo.
    cbn [num_or]. rewrite (bool_decide_eq_true_2 (0 = 0)) by reflexivity. reflexivity.
Qed.

Lemma filterByPriceRange_agrees_witness :
  filterByPriceRange mockProducts (Fin (int 150000)) (Fin (int 200000)) =
  filter_price_in mockProducts (Fin (int 150000)) (Fin (int 200000)).
Proof.
  apply (proj1 (filterByPriceRange_agrees mockProducts (int 150000) (int 200000))).
  qc_eval.
Defined.

(** * The search helpers and the page script *)

Lemma is_space_false (x : N) :
  (x <> 9 -> x <> 10 -> x <> 11 -> x <> 12 -> x <> 13 -> x <> 32 -> x <> 160 ->
   x <> 5760 -> x <> 8232 -> x <> 8233 -> x <> 8239 -> x <> 8287 -> x <> 12288 ->
   x <> 65279 -> ~ (8192 <= x <= 8202) -> is_space x = false)%N.
Proof.
  intros. unfold is_space. cbn [existsb].
  repeat rewrite (proj2 (N.eqb_neq x _)) by assumption. cbn [orb].
  destruct (N.leb_spec 8192 x); [|reflexivity].
  destruct (N.leb_spec x 8202); [lia | reflexivity].
Qed.

(** Lower-casing keeps blanks blank and letters letters. *)
Lemma is_space_lower (c : N) : is_space (lower_unit c) = is_space c.
Proof.
  unfold lower_unit.
  destruct (N.leb_spec 65 c), (N.leb_spec c 90); cbn [andb].
  1: { rewrite !is_space_false by lia. reflexivity. }
  all: destruct (N.leb_spec 192 c), (N.leb_spec c 222), (N.eqb_spec c 215); cbn [andb negb];
    try (rewrite !is_space_false by lia; reflexivity);
    destruct (N.eqb_spec c 376); try (subst; reflexivity);
    destruct (N.eqb_spec c 7838); try (subst; reflexivity);
    destruct (N.eqb_spec c 8490); try (subst; reflexivity);
    destruct (N.eqb_spec c 8491); try (subst; reflexivity);
    reflexivity.
Qed.

Lemma trimStart_lower (s : list N) :
  trimStart (toLowerCase s) = toLowerCase (trimStart s).
Proof.
  unfold toLowerCase. induction s as [|c s IH]; [reflexivity|].
  cbn [map trimStart]. rewrite is_space_lower. destruct (is_space c); [exact IH | reflexivity].
Qed.

Lemma trim_lower (s : list N) : trim (toLowerCase s) = toLowerCase (trim s).
Proof.
  unfold trim. rewrite trimStart_lower. unfold toLowerCase at 1.
  rewrite <- map_rev. fold (toLowerCase (rev (trimStart s))).
  rewrite trimStart_lower. unfold toLowerCase. rewrite map_rev. reflexivity.
Qed.

Lemma includes_nil (s : list N) : includes s [] = true.
Proof. destruct s; reflexivity. Qed.

Lemma filter_all {A} (f : A -> bool) (l : list A) :
  (forall x, f x = true) -> List.filter f l = l.
Proof.
  intros Hf. induction l as [|x l IH]; [reflexivity|]. simpl. rewrite Hf, IH. reflexivity.
Qed.

Lemma searchProducts_route (ps : list Product) (query : list N) :
  searchProducts query ps = search_in ps (trim query).
Proof. unfold searchProducts, search_in. rewrite trim_lower. reflexivity. Qed.

Lemma filterBySearch_route (ps : list Product) (query : list N) :
  filterBySearch ps query = search_in ps (trim query).
Proof.
  unfold filterBySearch, search_in. rewrite <- trim_lower.
  destruct (trim (toLowerCase query)) as [|c t]; [|reflexivity].
  symmetry. apply filter_all. intros p. rewrite includes_nil. reflexivity.
Qed.

Lemma search_in_sublist (ps : list Product) (query : list N) :
  sublist (search_in ps query) ps.
Proof.
  unfold search_in. induction ps as [|p ps IH]; simpl; [constructor|].
  destruct (_ || _); [apply sublist_skip | apply sublist_cons]; assumption.
Qed.

(** X13: the search helper of the test suite and the search of the page
    return what the search route returns for the query stripped of the
    blanks around it; the shortcut of the page for an empty term changes
    nothing; and a query without blanks around it gets the same answer from
    all three. *)
Theorem searches_agree (ps : list Product) (query : list N) :
  searchProducts query ps = search_in ps (trim query) /\
  filterBySearch ps query = search_in ps (trim query) /\
  (trim query = query ->
   searchProducts query ps = search_in ps query /\
   filterBySearch ps query = search_in ps query).
Proof.
  split; [apply searchProducts_route|]. split; [apply filterBySearch_route|].
  intros Ht. rewrite searchProducts_route, filterBySearch_route, Ht. auto.
Qed.

Lemma searches_agree_witness :
  searchProducts (js "  RUNNER ") products = search_in products (js "RUNNER") /\
  filterBySearch products (js "  RUNNER ") = search_in products (js "RUNNER").
Proof.
  destruct (searches_agree products (js "  RUNNER ")) as (H1 & H2 & _).
  split; [exact H1 | exact H2].
Defined.

(** The route itself keeps the blanks: they are part of the term. *)
Example search_route_keeps_blanks :
  search (js " runner") = [] /\ searchProducts (js " runner") products = [runner].
Proof. split; reflexivity. Qed.

(** X14: the page applies its two filters independently: a product is shown
    exactly when the search keeps it and the price filter of the route, on
    the same two numbers, keeps it; and the products shown are in the order
    in which they were loaded. *)
Theorem applyFilters_both (ps : list Product) (term : list N) (rawMin rawMax : jsnum)
    (p : Product) :
  (p ∈ applyFilters ps term rawMin rawMax <->
   p ∈ search_in ps (trim term) /\ p ∈ filter_price_in ps rawMin rawMax) /\
  sublist (applyFilters ps term rawMin rawMax) ps.
Proof.
  assert (Hmin : num_or (num_or rawMin (Fin 0)) (Fin 0) = num_or rawMin (Fin 0)).
  { apply num_or_twice. cbn. rewrite bool_decide_eq_true_2; reflexivity. }
  assert (Hmax : num_or (num_or rawMax PosInf) PosInf = num_or rawMax PosInf).
  { apply num_or_twice. reflexivity. }
  unfold applyFilters, filterByPrice. rewrite Hmin, Hmax, filterBySearch_route. split.
  - unfold filter_price_in, search_in.
    rewrite !list_elem_of_In, !filter_In. tauto.
  - transitivity (search_in ps (trim term)); [|apply search_in_sublist].
    set (f := fun p0 : Product => _ && _).
    generalize (search_in ps (trim term)). intros l.
    induction l as [|x l IH]; simpl; [constructor|].
    destruct (f x); [apply sublist_skip | apply sublist_cons]; exact IH.
Qed.

(** * The request validator of the test suite and the route *)

Lemma currentQty_absent (pid : Qc) (c : list CartItem) :
  (forall i, i ∈ c -> productId i <> pid) -> currentQty pid c = 0.
Proof.
  intros Hno. unfold currentQty. destruct (List.find _ c) as [i|] eqn:Hf; [|reflexivity].
  apply find_some in Hf as [Hin Hi]. apply bool_decide_eq_true in Hi.
  exfalso. apply (Hno i); [rewrite list_elem_of_In; exact Hin | exact Hi].
Qed.

(** A request the validator passes names one of the three products it
    knows, in a positive quantity within the stock. *)
Lemma validated_request (req : Body) :
  validateAddToCartRequest req = Valid ->
  exists pid q s,
    body_productId req = VNum pid /\ body_qty req = VNum q /\
    0 < q /\ q <= s /\ int 1 <= pid /\ pid <= int 9 /\
    record_get stockMap pid = Some s.
Proof.
  unfold validateAddToCartRequest.
  destruct (negb _ || _); [discriminate|].
  destruct (body_productId req) as [| | |pid| | |]; cbn [validateProductId negb]; try discriminate.
  destruct (bool_decide (0 < pid) && isInteger pid); cbn [negb]; [|discriminate].
  destruct (body_qty req) as [| | |q| | |]; cbn [validateQuantity negb]; try discriminate.
  destruct (bool_decide (0 < q)) eqn:Hq; cbn [andb negb]; [|discriminate].
  destruct (isInteger q); cbn [negb]; [|discriminate].
  apply bool_decide_eq_true in Hq.
  unfold checkStock, mockProducts, product. cbn [List.find p_id p_stock].
  repeat match goal with
  | |- context [bool_decide (int ?k = pid)] =>
    let Hid := fresh "Hid" in
    destruct (decide (int k = pid)) as [Hid|Hid];
    [ rewrite (bool_decide_eq_true_2 _ Hid); subst pid; cbn [p_stock];
      match goal with
      | |- context [bool_decide (q <= ?s)] =>
        let Hs := fresh "Hs" in
        destruct (bool_decide (q <= s)) eqn:Hs; [|discriminate];
        apply bool_decide_eq_true in Hs; intros _;
        exists (int k), q, s; repeat split; try reflexivity; try exact Hq; try exact Hs; qc_eval
      end
    | rewrite (bool_decide_eq_false_2 _ Hid) ]
  end.
  discriminate.
Qed.

(** X15: the validator of the test suite is on the safe side of the route:
    a request it passes is accepted by [add] whenever the cart holds nothing
    of the product yet, and is appended to the cart; and it reports missing
    data for exactly the requests the route turns away as incomplete. *)
Theorem validated_request_is_accepted (req : Body) (now : Z) (st : State) :
  (validateAddToCartRequest req = Valid ->
   (forall i, i ∈ items st -> VNum (productId i) <> body_productId req) ->
   exists st' pid q,
     req = mkBody (VNum pid) (VNum q) /\
     add now req st = (st', Json_ok (items st ++ [mkItem pid q]))) /\
  (validateAddToCartRequest req = Missing_data <->
   snd (add now req st) = Bad_request AddRequired).
Proof.
  split.
  - intros Hv Hno.
    destruct (validated_request req Hv) as (pid & q & s & Hp & Hq & Hpos & Hfit & Hlo & Hhi & Hs).
    destruct req as [rp rq]. cbn [body_productId body_qty] in *. subst rp rq.
    assert (Hcur : currentQty pid (items st) = 0).
    { apply currentQty_absent. intros i Hi Heq. apply (Hno i Hi). rewrite Heq. reflexivity. }
    assert (Hfit' : currentQty pid (items st) + q <= s).
    { rewrite Hcur, Qcplus_0_l. exact Hfit. }
    pose proof (add_accepted now st pid q s Hpos Hlo Hhi Hs Hfit') as Hadd.
    cbv zeta in Hadd. rewrite upsert_ids_absent in Hadd.
    + eexists _, pid, q. split; [reflexivity | exact Hadd].
    + intros Hin. apply list_elem_of_fmap in Hin as (i & -> & Hi).
      apply (Hno i Hi). reflexivity.
  - unfold validateAddToCartRequest, add.
    destruct (negb (truthy (body_productId req)) || loose_null (body_qty req)).
    + cbn [snd]. tauto.
    + split.
      * repeat match goal with
               | |- context [if ?b then _ else _] => destruct b
               | |- context [match ?v with VUndefined => _ | _ => _ end] => destruct v
               end; discriminate.
      * repeat match goal with
               | |- context [if ?b then _ else _] => destruct b
               | |- context [match ?v with VUndefined => _ | _ => _ end] => destruct v
               end; cbn [snd]; discriminate.
Qed.

Lemma validated_request_is_accepted_witness :
  exists st' pid q,
    int_body 7 15 = mkBody (VNum pid) (VNum q) /\
    add 3 (int_body 7 15) stocked =
      (st', Json_ok (items stocked ++ [mkItem pid q])).
Proof.
  apply (proj1 (validated_request_is_accepted (int_body 7 15) 3 stocked)).
  - reflexivity.
  - intros i [->|Hi]%elem_of_cons; [vm_compute; discriminate | inversion Hi].
Defined.

(** * Properties of the security middleware *)

(** ** Rate limiting *)

Lemma limit_all_counted (maxRequests windowMs : Z) (ip : string) (times : list Z) :
  forall (store : gmap string RateRecord) (n reset : Z) (k : nat) (a : RateAnswer),
    store !! ip = Some (mkRate n reset) ->
    valid_time reset = true ->
    Forall (fun t => (t <= reset)%Z) times ->
    limit_all maxRequests windowMs ip times store !! k = Some a ->
    (passed a = true <-> (n + Z.of_nat k + 1 <= maxRequests)%Z).
Proof.
  induction times as [|t times IH]; intros store n reset k a Hrec Hvalid Hts Hk; [discriminate|].
  apply Forall_cons in Hts as [Ht Hts]. cbn [limit_all] in Hk.
  unfold rateLimiter in Hk. rewrite Hrec in Hk. cbn [resetTime hits] in Hk.
  replace (reset <? t)%Z with false in Hk by (symmetry; apply Z.ltb_ge; exact Ht).
  rewrite Hvalid in Hk.
  destruct (Z.ltb_spec maxRequests (n + 1)) as [Hover|Hfits].
  - destruct k as [|k]; cbn in Hk.
    + injection Hk as <-. cbn. split; [discriminate | lia].
    + apply (IH _ (n + 1)%Z reset k a) in Hk;
        [rewrite Hk; lia | apply lookup_insert_eq | exact Hvalid | exact Hts].
  - destruct k as [|k]; cbn in Hk.
    + injection Hk as <-. cbn. split; [lia | reflexivity].
    + apply (IH _ (n + 1)%Z reset k a) in Hk;
        [rewrite Hk; lia | apply lookup_insert_eq | exact Hvalid | exact Hts].
Qed.

(** X16: an address the limiter has not seen sends a burst of requests, all
    within one window of the first, and the end of that window is a time a
    date can hold.  The first request passes whatever the limit is; after
    it, exactly the requests up to the limit pass, counted from the first. *)
Theorem burst_is_limited (maxRequests windowMs : Z) (ip : string) (t0 : Z) (ts : list Z)
    (store : gmap string RateRecord) (k : nat) (a : RateAnswer) :
  store !! ip = None ->
  valid_time (t0 + windowMs) = true ->
  Forall (fun t => (t <= t0 + windowMs)%Z) ts ->
  limit_all maxRequests windowMs ip (t0 :: ts) store !! k = Some a ->
  (passed a = true <-> k = 0%nat \/ (Z.of_nat k + 1 <= maxRequests)%Z).
Proof.
  intros Hnew Hvalid Hts Hk. cbn [limit_all] in Hk. unfold rateLimiter in Hk. rewrite Hnew in Hk.
  destruct k as [|k]; cbn in Hk.
  - injection Hk as <-. cbn. tauto.
  - apply (limit_all_counted _ _ _ _ _ 1%Z (t0 + windowMs)%Z k a) in Hk;
      [|apply lookup_insert_eq | exact Hvalid | exact Hts].
    rewrite Hk. lia.
Qed.

Lemma burst_is_limited_witness :
  limit_all 2 1000 "10.0.0.1" [50; 60; 70; 80]%Z ∅ =
    [Next_plain; Next_headers 2 0 1050; Too_many 1; Too_many 1] /\
  (passed (Next_headers 2 0 1050) = true <-> 1%nat = 0%nat \/ (Z.of_nat 1 + 1 <= 2)%Z).
Proof.
  split; [reflexivity|].
  apply (burst_is_limited 2 1000 "10.0.0.1" 50 [60; 70; 80]%Z ∅ 1 (Next_headers 2 0 1050)).
  - apply lookup_empty.
  - reflexivity.
  - repeat constructor; lia.
  - reflexivity.
Defined.

(** Beyond the times a date can hold the limiter fails on the second request
    of a window: the formatting of the reset time throws before [next]. *)
Example limiter_invalid_time :
  limit_all 100 9000000000000000 "10.0.0.1" [50; 60]%Z ∅ = [Next_plain; Invalid_time].
Proof. reflexivity. Qed.




(** ** Sanitising strings *)

Lemma trimStart_split (s : list N) :
  exists pre, s = pre ++ trimStart s /\ Forall (fun c => is_space c = true) pre.
Proof.
  induction s as [|c s (pre & Hs & Hpre)]; [exists []; auto|].
  cbn [trimStart]. destruct (is_space c) eqn:Hc.
  - exists (c :: pre). split; [cbn; congruence | constructor; assumption].
  - exists []. auto.
Qed.

Lemma trimStart_head (s : list N) (c : N) (rest : list N) :
  trimStart s = c :: rest -> is_space c = false.
Proof.
  induction s as [|x s IH]; [discriminate|]. cbn [trimStart].
  destruct (is_space x) eqn:Hx; [exact IH|]. intros [= <- _]. exact Hx.
Qed.

Lemma trimStart_fixed (s : list N) :
  (forall c rest, s = c :: rest -> is_space c = false) -> trimStart s = s.
Proof.
  destruct s as [|c s]; [reflexivity|]. intros H. cbn [trimStart].
  rewrite (H c s eq_refl). reflexivity.
Qed.

(** What [trim] returns begins and ends with a unit that is not blank. *)
Lemma trim_ends (s : list N) :
  (forall c rest, trim s = c :: rest -> is_space c = false) /\
  (forall c rest, rev (trim s) = c :: rest -> is_space c = false).
Proof.
  unfold trim. split.
  - intros c rest H.
    destruct (trimStart_split (rev (trimStart s))) as (pre & Hsplit & _).
    apply (f_equal (@rev N)) in Hsplit. rewrite rev_involutive, rev_app_distr, H in Hsplit.
    apply (trimStart_head s c (rest ++ rev pre)). exact Hsplit.
  - intros c rest. rewrite rev_involutive. apply trimStart_head.
Qed.

Lemma trim_fixed (s : list N) :
  (forall c rest, s = c :: rest -> is_space c = false) ->
  (forall c rest, rev s = c :: rest -> is_space c = false) ->
  trim s = s.
Proof.
  intros Hh Hl. unfold trim. rewrite (trimStart_fixed s Hh), (trimStart_fixed (rev s) Hl).
  apply rev_involutive.
Qed.

Lemma trimStart_sublist (s : list N) : sublist (trimStart s) s.
Proof.
  induction s as [|c s IH]; [constructor|]. cbn [trimStart].
  destruct (is_space c); [apply sublist_cons; exact IH | reflexivity].
Qed.

Lemma sublist_rev {A} (l k : list A) : sublist l k -> sublist (rev l) (rev k).
Proof.
  induction 1 as [|x l k _ IH|x l k _ IH]; cbn [rev].
  - constructor.
  - apply sublist_app; [exact IH | reflexivity].
  - transitivity (rev k); [exact IH | apply sublist_inserts_r; reflexivity].
Qed.

Lemma trim_sublist (s : list N) : sublist (trim s) s.
Proof.
  unfold trim. transitivity (trimStart s); [|apply trimStart_sublist].
  rewrite <- (rev_involutive (trimStart s)) at 2. apply sublist_rev, trimStart_sublist.
Qed.

Lemma filter_sublist_of {A} (f : A -> bool) (l : list A) : sublist (List.filter f l) l.
Proof.
  induction l as [|x l IH]; simpl; [constructor|].
  destruct (f x); [apply sublist_skip | apply sublist_cons]; exact IH.
Qed.

Lemma sanitized_sublist (s : list N) :
  sublist (sanitizeString (Some s)) (List.filter (fun c => negb (dangerous c)) s).
Proof.
  unfold sanitizeString. transitivity (trim (List.filter (fun c => negb (dangerous c)) s)).
  - apply sublist_take.
  - apply trim_sublist.
Qed.

Lemma sanitized_safe (s : list N) :
  Forall (fun c => dangerous c = false) (sanitizeString (Some s)).
Proof.
  apply Forall_forall. intros c Hc.
  assert (Hin : c ∈ List.filter (fun c => negb (dangerous c)) s).
  { eapply elem_of_sublist; [exact Hc | apply sanitized_sublist]. }
  rewrite list_elem_of_In, filter_In in Hin. destruct Hin as [_ Hd].
  apply negb_true_iff in Hd. exact Hd.
Qed.

Lemma filter_all_safe (t : list N) :
  Forall (fun c => dangerous c = false) t ->
  List.filter (fun c => negb (dangerous c)) t = t.
Proof.
  induction 1 as [|c t Hc _ IH]; [reflexivity|]. simpl. rewrite Hc. simpl. congruence.
Qed.

(** X18: what [sanitizeString] returns holds none of the four characters it
    removes, has at most 1000 units, does not begin with a blank, and is
    made of units of the input in their order; an input that is not a string
    gives the empty string. *)
Theorem sanitizeString_safe (s : list N) :
  Forall (fun c => dangerous c = false) (sanitizeString (Some s)) /\
  (length (sanitizeString (Some s)) <= 1000)%nat /\
  (forall c rest, sanitizeString (Some s) = c :: rest -> is_space c = false) /\
  sublist (sanitizeString (Some s)) s /\
  sanitizeString None = [].
Proof.
  split; [apply sanitized_safe|]. split; [|split; [|split]].
  - unfold sanitizeString. rewrite length_take. lia.
  - unfold sanitizeString. intros c rest H.
    destruct (trim (List.filter (fun c => negb (dangerous c)) s)) as [|c' t] eqn:Ht;
      [discriminate|].
    cbn in H. injection H as <- _. eapply (proj1 (trim_ends _)). exact Ht.
  - transitivity (List.filter (fun c => negb (dangerous c)) s);
      [apply sanitized_sublist | apply filter_sublist_of].
  - reflexivity.
Qed.

(** X19: on a string of at most 1000 units sanitising twice is sanitising
    once; and a string of at most 1000 units that holds none of the four
    characters and has no blank at either end is returned as it is. *)
Theorem sanitizeString_idempotent (s : list N) :
  (length s <= 1000)%nat ->
  sanitizeString (Some (sanitizeString (Some s))) = sanitizeString (Some s) /\
  (Forall (fun c => dangerous c = false) s ->
   (forall c rest, s = c :: rest -> is_space c = false) ->
   (forall c rest, rev s = c :: rest -> is_space c = false) ->
   sanitizeString (Some s) = s).
Proof.
  intros Hlen.
  assert (Hclean : forall t, (length t <= 1000)%nat ->
            Forall (fun c => dangerous c = false) t ->
            (forall c rest, t = c :: rest -> is_space c = false) ->
            (forall c rest, rev t = c :: rest -> is_space c = false) ->
            sanitizeString (Some t) = t).
  { intros t Ht Hsafe Hh Hl. unfold sanitizeString.
    rewrite filter_all_safe by exact Hsafe.
    rewrite trim_fixed by assumption. apply take_ge. exact Ht. }
  split; [|apply Hclean; exact Hlen].
  set (f := List.filter (fun c => negb (dangerous c)) s).
  assert (Hf : (length (trim f) <= 1000)%nat).
  { etransitivity; [apply sublist_length, trim_sublist|].
    etransitivity; [apply sublist_length, filter_sublist_of | exact Hlen]. }
  assert (Hs : sanitizeString (Some s) = trim f).
  { unfold sanitizeString. apply take_ge. exact Hf. }
  rewrite Hs. apply Hclean.
  - exact Hf.
  - rewrite <- Hs. apply sanitized_safe.
  - apply trim_ends.
  - apply trim_ends.
Qed.

Lemma sanitizeString_idempotent_witness :
  sanitizeString (Some (sanitizeString (Some (js "  <b>Runner</b> ")))) =
    sanitizeString (Some (js "  <b>Runner</b> ")) /\
  (Forall (fun c => dangerous c = false) (js "  <b>Runner</b> ") ->
   (forall c rest, js "  <b>Runner</b> " = c :: rest -> is_space c = false) ->
   (forall c rest, rev (js "  <b>Runner</b> ") = c :: rest -> is_space c = false) ->
   sanitizeString (Some (js "  <b>Runner</b> ")) = js "  <b>Runner</b> ").
Proof.
  apply (sanitizeString_idempotent (js "  <b>Runner</b> ")).
  vm_compute. lia.
Defined.

(** Beyond 1000 units the cut may leave a blank at the end, which a second
    pass strips. *)
Example sanitize_twice_differs :
  let s := (65 :: repeat 32 999 ++ [66])%N in
  sanitizeString (Some s) = (65 :: repeat 32 999)%N /\
  sanitizeString (Some (sanitizeString (Some s))) = [65%N].
Proof. split; vm_compute; reflexivity. Qed.

(** ** Validating cart data *)

Lemma int_den (z : Z) : Qden (this (int z)) = 1%positive.
Proof.
  unfold int. cbn [this Q2Qc]. rewrite (proj2 (Qred_iff (inject_Z z))); [reflexivity|].
  cbn. apply Z.gcd_1_r.
Qed.

Lemma isInteger_int (n : Qc) : isInteger n = true <-> exists z, n = int z.
Proof.
  unfold isInteger. rewrite bool_decide_eq_true. split.
  - intros Hden. exists (Qnum (this n)). apply Qc_is_canon. rewrite int_this.
    destruct n as [[num den] Hc]. cbn in *. subst den. reflexivity.
  - intros [z ->]. apply int_den.
Qed.

Lemma floor_int (z : Z) : floor (int z) = int z.
Proof.
  unfold floor. f_equal. rewrite (int_this z). apply Qfloor_Z.
Qed.

Lemma validateCartData_fields (p q : Z) :
  (1 <= p <= 999)%Z -> (1 <= q <= 100)%Z ->
  validateCartData (VObj [("productId"%string, VNum (int p)); ("qty"%string, VNum (int q))]) =
  Data_valid (mkItem (int p) (int q)).
Proof.
  intros Hp Hq. unfold validateCartData.
  cbn [truthy is_object negb orb prop_of prop existsb fst].
  rewrite !(bool_decide_eq_false_2 ("qty"%string = "productId"%string)) by discriminate.
  rewrite !(bool_decide_eq_true_2 ("qty"%string = "qty"%string)) by reflexivity.
  rewrite !(bool_decide_eq_true_2 ("productId"%string = "productId"%string)) by reflexivity.
  cbn [orb]. rewrite !(proj2 (isInteger_int _)) by eauto. cbn [negb orb].
  rewrite !bool_decide_eq_false_2 by (rewrite int_lt; lia).
  cbn [orb]. rewrite !floor_int. reflexivity.
Qed.

(** X20: [validateCartData] accepts exactly the objects whose productId is
    an integer from 1 to 999 and whose qty is an integer from 1 to 100, and
    the item it returns holds those two integers unchanged. *)
Theorem validateCartData_valid (data : value) (item : CartItem) :
  validateCartData data = Data_valid item <->
  exists fields p q,
    data = VObj fields /\
    prop "productId" fields = VNum (int p) /\ prop "qty" fields = VNum (int q) /\
    (1 <= p <= 999)%Z /\ (1 <= q <= 100)%Z /\
    item = mkItem (int p) (int q).
Proof.
  unfold validateCartData. split.
  - destruct data as [| |b|n|s|xs|fields]; cbn [truthy is_object negb orb prop_of];
      try discriminate.
    + destruct (negb b || true); discriminate.
    + destruct (negb _ || true); discriminate.
    + destruct (negb _ || true); discriminate.
    + destruct (prop "productId" fields) as [| | |pid| | |] eqn:Hp; try discriminate.
      destruct (isInteger pid) eqn:Hip; cbn [negb orb]; [|discriminate].
      destruct (bool_decide (pid < int 1)) eqn:Hlo; cbn [orb]; [discriminate|].
      destruct (bool_decide (int 999 < pid)) eqn:Hhi; [discriminate|].
      destruct (prop "qty" fields) as [| | |n| | |] eqn:Hq; try discriminate.
      destruct (isInteger n) eqn:Hin; cbn [negb orb]; [|discriminate].
      destruct (bool_decide (n < int 1)) eqn:Hlo'; cbn [orb]; [discriminate|].
      destruct (bool_decide (int 100 < n)) eqn:Hhi'; [discriminate|].
      intros [= <-].
      apply isInteger_int in Hip as [p ->]. apply isInteger_int in Hin as [q ->].
      apply bool_decide_eq_false in Hlo, Hhi, Hlo', Hhi'.
      rewrite int_lt in Hlo, Hhi, Hlo', Hhi'.
      exists fields, p, q. rewrite !floor_int.
      repeat split; try reflexivity; try assumption; lia.
  - intros (fields & p & q & -> & Hp & Hq & Hpr & Hqr & ->).
    cbn [truthy is_object negb orb prop_of]. rewrite Hp, Hq.
    rewrite !(proj2 (isInteger_int _)) by eauto. cbn [negb orb].
    rewrite !bool_decide_eq_false_2 by (rewrite int_lt; lia).
    cbn [orb]. rewrite !floor_int. reflexivity.
Qed.

Lemma stockMap_at_most_24 (pid s : Qc) :
  record_get stockMap pid = Some s -> s <= int 24.
Proof.
  unfold stockMap. cbn [record_get].
  repeat (case_bool_decide; [intros [= <-]; qc_eval|]). discriminate.
Qed.

Lemma stockMap_known (z : Z) :
  (1 <= z <= 9)%Z -> exists s, record_get stockMap (int z) = Some s.
Proof.
  intros Hz.
  assert (Hcases : (z = 1 \/ z = 2 \/ z = 3 \/ z = 4 \/ z = 5 \/ z = 6 \/ z = 7 \/ z = 8 \/ z = 9)%Z)
    by lia.
  repeat (destruct Hcases as [->|Hcases]; [eexists; reflexivity|]).
  subst z. eexists; reflexivity.
Qed.

(** X21: a request with an integer productId and an integer qty that [add]
    accepts, on a cart whose quantities are not negative, is one that
    [validateCartData] accepts as well, with the same two numbers. *)
Theorem accepted_is_valid_data (now : Z) (p q : Z) (st st' : State) (c' : list CartItem) :
  (forall i, i ∈ items st -> 0 <= qty i) ->
  add now (int_body p q) st = (st', Json_ok c') ->
  validateCartData (VObj [("productId"%string, VNum (int p)); ("qty"%string, VNum (int q))]) =
  Data_valid (mkItem (int p) (int q)).
Proof.
  intros Hpos Hadd.
  apply add_ok_inv in Hadd as (pid & n & [= <-] & [= <-] & Hq & Hlo & Hhi & Hgt & _).
  apply (proj1 (int_le _ _)) in Hlo. apply (proj1 (int_le _ _)) in Hhi.
  rewrite <- int_0 in Hq. apply (proj1 (int_lt _ _)) in Hq.
  destruct (stockMap_known p (conj Hlo Hhi)) as [s Hs].
  rewrite Hs in Hgt. cbn [gt_maybe] in Hgt. apply bool_decide_eq_false in Hgt.
  apply Qcnot_lt_le in Hgt.
  assert (Hcur : 0 <= currentQty (int p) (items st)).
  { unfold currentQty. destruct (List.find _ (items st)) as [i|] eqn:Hf; [|apply Qcle_refl].
    apply find_some in Hf as [Hin _]. apply Hpos. rewrite list_elem_of_In. exact Hin. }
  assert (Hq24 : int q <= int 24).
  { apply Qcle_trans with s; [|apply (stockMap_at_most_24 _ _ Hs)].
    apply Qcle_trans with (currentQty (int p) (items st) + int q); [|exact Hgt].
    rewrite <- (Qcplus_0_l (int q)) at 1. apply Qcplus_le_compat; [exact Hcur | apply Qcle_refl]. }
  apply (proj1 (int_le _ _)) in Hq24.
  apply validateCartData_fields; lia.
Qed.

Lemma accepted_is_valid_data_witness :
  validateCartData (VObj [("productId"%string, VNum (int 2)); ("qty"%string, VNum (int 3))]) =
  Data_valid (mkItem (int 2) (int 3)).
Proof.
  apply (accepted_is_valid_data 0 2 3 stocked
           (fst (add 0 (int_body 2 3) stocked))
           [mkItem (int 1) (int 12); mkItem (int 2) (int 3)]).
  - intros i [->|Hi]%elem_of_cons; [qc_eval | inversion Hi].
  - reflexivity.
Defined.

(** ** The authentication gates *)

(** X22: the role gates.  The gate for the role "user" lets every session
    through that has a userId and any role at all; the gate for "admin" lets
    through exactly the sessions whose role is "admin"; a 403 is given only
    by the admin gate, to a session that is logged in with another role; and
    whoever passes a role gate passes [requireAuth]. *)
Theorem role_gates (sess : AuthSession) :
  (requireRole role_user sess = Proceed <->
   string_truthy (auth_userId sess) = true /\ string_truthy (userRole sess) = true) /\
  (requireRole role_admin sess = Proceed <->
   string_truthy (auth_userId sess) = true /\ userRole sess = Some "admin"%string) /\
  (forall role, requireRole role sess = Forbidden ->
     role = role_admin /\ string_truthy (auth_userId sess) = true /\
     string_truthy (userRole sess) = true /\ userRole sess <> Some "admin"%string) /\
  (forall role, requireRole role sess = Proceed -> requireAuth sess = Proceed).
Proof.
  unfold requireRole, requireAuth.
  destruct (string_truthy (auth_userId sess)) eqn:Hu; cbn [negb orb].
  - destruct (string_truthy (userRole sess)) eqn:Hr; cbn [negb orb].
    + split; [|split; [|split]].
      * rewrite andb_false_r. tauto.
      * cbn [role_name]. rewrite andb_true_r.
        destruct (decide (userRole sess = Some "admin"%string)) as [Ha|Ha].
        -- rewrite (bool_decide_eq_true_2 _ Ha). cbn. tauto.
        -- rewrite (bool_decide_eq_false_2 _ Ha). cbn. split; [discriminate | tauto].
      * intros [|]; cbn [role_name]; [rewrite andb_false_r; discriminate|].
        rewrite andb_true_r.
        destruct (decide (userRole sess = Some "admin"%string)) as [Ha|Ha].
        -- rewrite (bool_decide_eq_true_2 _ Ha). discriminate.
        -- auto.
      * reflexivity.
    + split; [|split; [|split]].
      * split; [discriminate | intros [_ H]; discriminate].
      * split; [discriminate|]. intros [_ Ha]. rewrite Ha in Hr. discriminate.
      * intros role H. discriminate.
      * reflexivity.
  - split; [|split; [|split]].
    + split; [discriminate | intros [H _]; discriminate].
    + split; [discriminate | intros [H _]; discriminate].
    + intros role H. discriminate.
    + intros role H. discriminate.
Qed.

(** ** The audit log *)

Lemma record_log_length (log : AuditLog) (logs : list AuditLog) :
  (length logs <= 1000)%nat -> (length (record_log log logs) <= 1000)%nat.
Proof.
  intros H. unfold record_log.
  destruct (Z.ltb_spec 1000 (Z.of_nat (length (logs ++ [log])))) as [Hover|Hfits].
  - destruct logs as [|l logs]; cbn in *; [lia|]. rewrite length_app in *. cbn in *. lia.
  - lia.
Qed.

Lemma record_log_drop (log : AuditLog) (pushed : list AuditLog) :
  record_log log (drop (length pushed - 1000) pushed) =
  drop (length (pushed ++ [log]) - 1000) (pushed ++ [log]).
Proof.
  unfold record_log. rewrite !length_app, length_drop. cbn [length].
  destruct (Z.ltb_spec 1000 (Z.of_nat (length pushed - (length pushed - 1000) + 1))) as [Hover|Hfits].
  - assert (Hlen : (1000 <= length pushed)%nat) by lia.
    replace (length pushed + 1 - 1000)%nat with (S (length pushed - 1000)) by lia.
    rewrite <- drop_app_le by lia.
    generalize (pushed ++ [log]). intros l. generalize (length pushed - 1000)%nat. intros n.
    revert l. induction n as [|n IH]; intros [|x l]; cbn; try reflexivity.
    + apply IH.
  - assert (Hlen : (length pushed < 1000)%nat) by lia.
    replace (length pushed - 1000)%nat with 0%nat by lia.
    replace (length pushed + 1 - 1000)%nat with 0%nat by lia.
    reflexivity.
Qed.

(** X23: the audit log keeps the newest thousand entries: after any series
    of responses, starting from an empty log, it holds the entries written
    from the thousandth-last on, in the order they were written, and so
    never more than a thousand. *)
Theorem audit_log_keeps_last_1000 (pushed : list AuditLog) :
  fold_left (fun logs log => record_log log logs) pushed [] =
    drop (length pushed - 1000) pushed /\
  (length (fold_left (fun logs log => record_log log logs) pushed []) <= 1000)%nat.
Proof.
  assert (H : fold_left (fun logs log => record_log log logs) pushed [] =
              drop (length pushed - 1000) pushed).
  { induction pushed as [|log pushed IH] using rev_ind; [reflexivity|].
    rewrite fold_left_app. cbn [fold_left]. rewrite IH. apply record_log_drop. }
  split; [exact H|]. rewrite H, length_drop. lia.
Qed.

(** X24: [getAuditLogs] with a limit of at least 1 returns the newest
    entries, as many as the limit or all when there are fewer; with a limit
    of 0 it returns the whole log, and with a negative limit it drops that
    many of the oldest entries. *)
Theorem getAuditLogs_limit (limit : Z) (logs : list AuditLog) :
  ((1 <= limit)%Z ->
   getAuditLogs limit logs = drop (length logs - Z.to_nat limit) logs /\
   length (getAuditLogs limit logs) = Nat.min (Z.to_nat limit) (length logs)) /\
  getAuditLogs 0 logs = logs /\
  ((limit < 0)%Z -> getAuditLogs limit logs = drop (Z.to_nat (- limit)) logs).
Proof.
  unfold getAuditLogs, slice_from. split; [|split].
  - intros Hl. replace (- limit <? 0)%Z with true by (symmetry; apply Z.ltb_lt; lia).
    assert (Hn : Z.to_nat (Z.max (Z.of_nat (length logs) + - limit) 0) =
                 (length logs - Z.to_nat limit)%nat) by lia.
    rewrite Hn. split; [reflexivity|]. rewrite length_drop. lia.
  - change (- 0)%Z with 0%Z. change (0 <? 0)%Z with false. cbv iota.
    replace (Z.to_nat (Z.min 0 (Z.of_nat (length logs)))) with 0%nat by lia. reflexivity.
  - intros Hl. replace (- limit <? 0)%Z with false by (symmetry; apply Z.ltb_ge; lia).
    destruct (Z.min_spec (- limit) (Z.of_nat (length logs))) as [[Hlt ->]|[Hge ->]].
    + reflexivity.
    + rewrite Nat2Z.id. rewrite !drop_ge by lia. reflexivity.
Qed.

Lemma getAuditLogs_limit_witness :
  getAuditLogs 2 [mkLog 1 "a" "GET" "/" None 200; mkLog 2 "a" "GET" "/" None 200;
                  mkLog 3 "b" "POST" "/api/cart/add" None 400] =
    drop (3 - Z.to_nat 2)
      [mkLog 1 "a" "GET" "/" None 200; mkLog 2 "a" "GET" "/" None 200;
       mkLog 3 "b" "POST" "/api/cart/add" None 400] /\
  length (getAuditLogs 2 [mkLog 1 "a" "GET" "/" None 200; mkLog 2 "a" "GET" "/" None 200;
                          mkLog 3 "b" "POST" "/api/cart/add" None 400]) =
    Nat.min (Z.to_nat 2) 3.
Proof.
  apply (proj1 (getAuditLogs_limit 2 [mkLog 1 "a" "GET" "/" None 200;
                                      mkLog 2 "a" "GET" "/" None 200;
                                      mkLog 3 "b" "POST" "/api/cart/add" None 400])).
  lia.
Defined.

(** ** CSRF protection *)

(** X25: requests that do not change anything pass without touching the
    session.  For POST, PUT, DELETE and PATCH the session has a non-empty
    token afterwards; a request that brings no token is refused, also when
    the session had no token before; and with a token in the session the
    request passes exactly when its header, or without a header its form
    field, is that token. *)
Theorem csrf_gate (http_method : string) (header : option string) (field : value)
    (fresh : string) (csrfToken : option string) :
  fresh <> ""%string ->
  (http_method ∉ ["POST"; "PUT"; "DELETE"; "PATCH"]%string ->
   csrfProtection http_method header field fresh csrfToken = (csrfToken, Proceed)) /\
  (http_method ∈ ["POST"; "PUT"; "DELETE"; "PATCH"]%string ->
   (exists t, fst (csrfProtection http_method header field fresh csrfToken) = Some t /\
              t <> ""%string) /\
   (header = None -> field = VUndefined ->
    snd (csrfProtection http_method header field fresh csrfToken) = Forbidden) /\
   (forall t, csrfToken = Some t -> t <> ""%string ->
      fst (csrfProtection http_method header field fresh csrfToken) = Some t /\
      (snd (csrfProtection http_method header field fresh csrfToken) = Proceed <->
       header = Some t \/
       ((header = None \/ header = Some ""%string) /\ field = VStr t)))).
Proof.
  intros Hfresh. unfold csrfProtection.
  destruct (existsb _ _) eqn:Hm.
  - split.
    + intros Hnot. exfalso. apply Hnot.
      apply existsb_exists in Hm as (m & Hin & Hm). apply bool_decide_eq_true in Hm.
      subst m. rewrite list_elem_of_In. exact Hin.
    + intros _. split; [|split].
      * exists (string_or csrfToken fresh).
        split; [destruct (negb _); reflexivity | apply string_or_nonempty, Hfresh].
      * intros -> ->. reflexivity.
      * intros t -> Ht. rewrite string_or_present by exact Ht.
        split; [destruct (negb _); reflexivity|].
        destruct header as [h|].
        -- destruct (decide (h = ""%string)) as [->|Hh].
           ++ rewrite bool_decide_eq_true_2 by reflexivity.
              destruct field as [| | | |s| |]; cbn [verifyCSRFToken negb snd];
                try (split; [discriminate | intros [[= H]|[_ H]]; [congruence | discriminate]]).
              destruct (decide (s = t)) as [->|Hs].
              ** rewrite bool_decide_eq_true_2 by reflexivity. cbn. split; [|reflexivity].
                 intros _. right. auto.
              ** rewrite (bool_decide_eq_false_2 _ Hs). cbn. split; [discriminate|].
                 intros [[= H]|[_ [= H]]]; congruence.
           ++ rewrite (bool_decide_eq_false_2 _ Hh). cbn [verifyCSRFToken].
              destruct (decide (h = t)) as [->|Hs].
              ** rewrite bool_decide_eq_true_2 by reflexivity. cbn. split; [|reflexivity].
                 intros _. left. reflexivity.
              ** rewrite (bool_decide_eq_false_2 _ Hs). cbn. split; [discriminate|].
                 intros [[= H]|[[H|[= H]] _]]; congruence.
        -- destruct field as [| | | |s| |]; cbn [verifyCSRFToken negb snd];
             try (split; [discriminate | intros [H|[_ H]]; discriminate]).
           destruct (decide (s = t)) as [->|Hs].
           ** rewrite bool_decide_eq_true_2 by reflexivity. cbn. split; [|reflexivity].
              intros _. right. auto.
           ** rewrite (bool_decide_eq_false_2 _ Hs). cbn. split; [discriminate|].
              intros [H|[_ [= H]]]; [discriminate | congruence].
  - split; [reflexivity|]. intros Hin. exfalso.
    assert (Hex : existsb (fun m => bool_decide (m = http_method))
                    ["POST"; "PUT"; "DELETE"; "PATCH"]%string = true); [|congruence].
    apply existsb_exists. exists http_method. rewrite <- list_elem_of_In.
    split; [exact Hin | apply bool_decide_eq_true; reflexivity].
Qed.

Lemma csrf_gate_witness :
  snd (csrfProtection "POST" None VUndefined "5f1c" None) = Forbidden.
Proof.
  destruct (csrf_gate "POST" None VUndefined "5f1c" None ltac:(discriminate)) as [_ H].
  destruct H as (_ & H & _); [apply list_elem_of_here|].
  apply H; reflexivity.
Defined.

(** ** Behind the server's middleware *)

Lemma assign_userId_present (now : Z) (suffix : string) (sess : Session) :
  exists u, userId (assign_userId now suffix sess) = Some u /\ u <> ""%string /\
            cart (assign_userId now suffix sess) = cart sess /\
            (string_truthy (userId sess) = true -> userId sess = Some u) /\
            (userId sess <> Some "__proto__"%string -> u <> "__proto__"%string).
Proof.
  unfold assign_userId. destruct (string_truthy (userId sess)) eqn:Hu.
  - destruct (userId sess) as [u|] eqn:Hs; [|discriminate].
    exists u. cbn in Hu. apply negb_true_iff, bool_decide_eq_false in Hu.
    repeat split; auto. congruence.
  - eexists. split; [reflexivity|]. split; [discriminate|]. split; [reflexivity|].
    split; [discriminate|]. intros _. simpl. discriminate.
Qed.

(** X26: behind the middleware that names the session, every cart request
    runs under a non-empty userId, which is the session's own when it has
    one; that userId is still the session's after the request, so that the
    next request keeps it; and when the data file is absent or is read as a
    mapping, writes succeed and the session did not arrive with the userId
    [__proto__], an accepted request leaves the cart it answers with under
    that userId in the file. *)
Theorem served_under_userId (now : Z) (suffix : string) (r : Request) (st : State) :
  exists u,
    u <> ""%string /\
    (string_truthy (userId (session st)) = true -> userId (session st) = Some u) /\
    userId (session (fst (serve now suffix r st))) = Some u /\
    assign_userId (now + 1) suffix (session (fst (serve now suffix r st))) =
      session (fst (serve now suffix r st)) /\
    (usable (disk st) = true -> userId (session st) <> Some "__proto__"%string ->
     forall c, snd (serve now suffix r st) = Json_ok c ->
       entry u (disk (fst (serve now suffix r st))) = Some c /\
       items (fst (serve now suffix r st)) = c).
Proof.
  destruct (assign_userId_present now suffix (session st))
    as (u & Hu & Hne & _ & Hown & Hproto).
  exists u. unfold serve.
  set (st1 := mkState (assign_userId now suffix (session st)) (disk st)).
  assert (Hu1 : userId (session st1) = Some u) by exact Hu.
  assert (Hkeep : userId (session (fst (handle r st1))) = Some u)
    by (apply handle_keeps_user; assumption).
  split; [exact Hne|]. split; [exact Hown|]. split; [exact Hkeep|]. split.
  - unfold assign_userId, string_truthy. rewrite Hkeep.
    rewrite bool_decide_eq_false_2 by exact Hne. reflexivity.
  - intros Hd Hsess c Hc. destruct (handle r st1) as [st' resp] eqn:H. cbn [fst snd] in *.
    subst resp. apply (handle_ok_state r st1 st' c u Hu1 Hne) in H. subst st'.
    cbn [disk]. split; [apply save_entry; auto | reflexivity].
Qed.

(** ** Users and passwords *)

Lemma split_on_plain (sep : N) (s : list N) : sep ∉ s -> split_on sep s = [s].
Proof.
  induction s as [|c s IH]; intros Hs; [reflexivity|].
  apply not_elem_of_cons in Hs as [Hc Hs]. cbn [split_on].
  rewrite (proj2 (N.eqb_neq c sep)) by congruence. rewrite IH by exact Hs. reflexivity.
Qed.

Lemma split_on_first (sep : N) (a b : list N) :
  sep ∉ a -> split_on sep (a ++ sep :: b) = a :: split_on sep b.
Proof.
  induction a as [|c a IH]; intros Ha.
  - cbn [app split_on]. rewrite N.eqb_refl. reflexivity.
  - apply not_elem_of_cons in Ha as [Hc Ha]. cbn [app split_on].
    rewrite (proj2 (N.eqb_neq c sep)) by congruence. rewrite IH by exact Ha. reflexivity.
Qed.

(** X27: a user that was created can log in.  When the salt drawn is not
    empty and neither it nor the hash holds a colon (both are hex strings),
    [authenticateUser] with the name and the password given to [createUser]
    returns the user created; with another password it returns the user
    exactly when that password hashes to the same value; creating a user
    does not change what any other name gets; and a name nobody created
    gets nothing. *)
Theorem created_user_logs_in (pbkdf2 : list N -> list N -> list N)
    (name password : list N) (role : Role) (random uuid : list N) (now : Z)
    (users : gmap (list N) User) :
  random <> [] ->
  58%N ∉ random ->
  (forall pw, 58%N ∉ pbkdf2 pw random) ->
  let users' := fst (createUser pbkdf2 name password role random uuid now users) in
  let user := snd (createUser pbkdf2 name password role random uuid now users) in
  (forall again, authenticateUser pbkdf2 name password again users' = Some user) /\
  (forall other again,
     authenticateUser pbkdf2 name other again users' = Some user <->
     pbkdf2 other random = pbkdf2 password random) /\
  (forall name' pw again, name' <> name ->
     authenticateUser pbkdf2 name' pw again users' =
     authenticateUser pbkdf2 name' pw again users) /\
  (forall pw again, authenticateUser pbkdf2 name pw again ∅ = None).
Proof.
  intros Hne Hsalt Hhash users' user.
  assert (Hother : forall other again,
            authenticateUser pbkdf2 name other again users' =
            if bool_decide (pbkdf2 password random = pbkdf2 other random)
            then Some user else None).
  { intros other again. unfold authenticateUser, users', user, createUser, hashPassword.
    cbn [fst snd]. rewrite lookup_insert_eq. cbn [passwordHash].
    rewrite split_on_first by exact Hsalt. rewrite split_on_plain by apply Hhash.
    unfold verifyPassword, hashPassword. destruct random as [|c random]; [congruence|].
    cbn [fst]. reflexivity. }
  split; [|split; [|split]].
  - intros again. rewrite Hother, bool_decide_eq_true_2 by reflexivity. reflexivity.
  - intros other again. rewrite Hother. case_bool_decide as Heq.
    + split; [intros _; congruence | reflexivity].
    + split; [discriminate | intros H; congruence].
  - intros name' pw again Hn. unfold authenticateUser, users', createUser, hashPassword.
    cbn [fst]. rewrite lookup_insert_ne by congruence. reflexivity.
  - intros pw again. unfold authenticateUser. rewrite lookup_empty. reflexivity.
Qed.

Lemma created_user_logs_in_witness :
  authenticateUser digits_kdf (js "ana") (js "secreto") []
    (fst (createUser digits_kdf (js "ana") (js "secreto") role_user (js "a1b2") (js "id-1") 0 ∅)) =
  Some (snd (createUser digits_kdf (js "ana") (js "secreto") role_user (js "a1b2") (js "id-1") 0 ∅)).
Proof.
  refine (proj1 (created_user_logs_in digits_kdf (js "ana") (js "secreto") role_user
                   (js "a1b2") (js "id-1") 0 ∅ _ _ _) []).
  - discriminate.
  - vm_compute. intros H. repeat (apply elem_of_cons in H as [H|H]; [discriminate|]).
    inversion H.
  - intros pw. unfold digits_kdf. intros H. apply list_elem_of_fmap in H as (c & Hc & _).
    pose proof (N.mod_upper_bound c 10 ltac:(discriminate)). lia.
Defined.

(** ** Validating the input of a request *)

(** X28: after [inputValidator], also when it refuses the request, the
    query has the same names in the same order, every string in it has been
    sanitised and so holds none of the four characters and at most 1000
    units, and the nested values are as they were.  GET requests always
    pass; POST, PUT and PATCH pass exactly when there is a content type that
    contains "application/json" in just that spelling. *)
Theorem inputValidator_query (http_method : string) (contentType : option (list N))
    (query : list (string * QueryValue)) :
  map fst (fst (inputValidator http_method contentType query)) = map fst query /\
  (forall k s, (k, Query_string s) ∈ fst (inputValidator http_method contentType query) ->
     Forall (fun c => dangerous c = false) s /\ (length s <= 1000)%nat) /\
  (forall k, (k, Query_nested) ∈ fst (inputValidator http_method contentType query) <->
             (k, Query_nested) ∈ query) /\
  (http_method ∉ ["POST"; "PUT"; "PATCH"]%string ->
   snd (inputValidator http_method contentType query) = Input_next) /\
  (http_method ∈ ["POST"; "PUT"; "PATCH"]%string ->
   (snd (inputValidator http_method contentType query) = Input_next <->
    exists ct, contentType = Some ct /\ includes ct (js "application/json") = true)).
Proof.
  set (f := fun kv : string * QueryValue =>
              match snd kv with
              | Query_string s => (fst kv, Query_string (sanitizeString (Some s)))
              | Query_nested => kv
              end).
  assert (Hq : fst (inputValidator http_method contentType query) = map f query).
  { unfold inputValidator. fold f. destruct (existsb _ _); [|reflexivity].
    destruct contentType as [[|c t]|]; try reflexivity.
    destruct (includes _ _); reflexivity. }
  rewrite Hq. split; [|split; [|split; [|split]]].
  - rewrite map_map. apply map_ext. intros [k [s|]]; reflexivity.
  - intros k s Hin. apply list_elem_of_fmap in Hin as ([k' [s'|]] & Heq & _); cbn in Heq.
    + injection Heq as _ ->. split; [apply sanitized_safe|].
      unfold sanitizeString. rewrite length_take. lia.
    + discriminate.
  - intros k. split.
    + intros Hin. apply list_elem_of_fmap in Hin as ([k' [s'|]] & Heq & Hin); cbn in Heq.
      * discriminate.
      * injection Heq as ->. exact Hin.
    + intros Hin. apply list_elem_of_fmap. exists (k, Query_nested). auto.
  - intros Hnot. unfold inputValidator. destruct (existsb _ _) eqn:Hm; [|reflexivity].
    exfalso. apply Hnot. apply existsb_exists in Hm as (m & Hin & Hm).
    apply bool_decide_eq_true in Hm. subst m. rewrite list_elem_of_In. exact Hin.
  - intros Hin. unfold inputValidator.
    assert (Hm : existsb (fun m => bool_decide (m = http_method))
                   ["POST"; "PUT"; "PATCH"]%string = true).
    { apply existsb_exists. exists http_method. rewrite <- list_elem_of_In.
      split; [exact Hin | apply bool_decide_eq_true; reflexivity]. }
    rewrite Hm. destruct contentType as [[|c t]|]; cbn [snd].
    + split; [discriminate | intros (ct & [= <-] & H); discriminate].
    + destruct (includes (c :: t) (js "application/json")) eqn:Hi; cbn [snd].
      * split; [eauto | reflexivity].
      * split; [discriminate | intros (ct & [= <-] & H); congruence].
    + split; [discriminate | intros (ct & H & _); discriminate].
Qed.
